(** * libctru [3ds/os.h]: a shallow embedding and its verified properties

    The header declares the OS helpers of libctru.  Its inline functions
    (tick counters, configuration-memory reads, memory-region accounting)
    and its macros (clock rates, version packing, address map) are embedded
    here as they are written; the three functions it only declares
    ([osTickCounterRead], [osConvertOldLINEARMemToNew],
    [osGetSystemVersionData]) are modelled from the specification and
    marked as such. *)

From Stdlib Require Import ZArith Lia Bool List.
From Stdlib Require Import Floats.
From Equations Require Import Equations.

Import ListNotations.
Local Open Scope Z_scope.

(** ** Machine integers

    [u8], [u32] and [u64] values are integers in [0, 2^w); every C
    operation that can leave the range is followed by its wrap-around. *)

Definition wrap8 (z : Z) : Z := z mod 2 ^ 8.
Definition wrap32 (z : Z) : Z := z mod 2 ^ 32.
Definition wrap64 (z : Z) : Z := z mod 2 ^ 64.

Definition is_u8 (z : Z) : Prop := 0 <= z < 2 ^ 8.
Definition is_u32 (z : Z) : Prop := 0 <= z < 2 ^ 32.
Definition is_u64 (z : Z) : Prop := 0 <= z < 2 ^ 64.
Definition is_s32 (z : Z) : Prop := - 2 ^ 31 <= z < 2 ^ 31.

Definition add32 (a b : Z) : Z := wrap32 (a + b).
Definition sub32 (a b : Z) : Z := wrap32 (a - b).
Definition sub64 (a b : Z) : Z := wrap64 (a - b).
Definition shl32 (a n : Z) : Z := wrap32 (Z.shiftl a n).
Definition shr32 (a n : Z) : Z := Z.shiftr a n.

(** ** The system the header talks to

    Three things lie outside the header: the free-running tick register
    behind [svcGetSystemTick], the bytes of the address space read through
    [vu8]/[vu32] pointers, and the kernel's answer to [svcGetSystemInfo].
    A [System] records them; [tick_calls] counts the tick reads made so
    far, so that successive reads may see different values. *)

Record System : Type := mkSystem {
  tick_source : nat -> Z;
  tick_calls : nat;
  memory : Z -> Z;
  system_info : Z -> Z -> Z * Z
}.

(** Computations that use the system thread it through. *)
Definition Sys (A : Type) : Type := System -> A * System.

Definition ret {A : Type} (a : A) : Sys A := fun s => (a, s).

Definition bind {A B : Type} (m : Sys A) (k : A -> Sys B) : Sys B :=
  fun s => let (a, s') := m s in k a s'.

Notation "x <- m ;; k" := (bind m (fun x => k))
  (at level 61, m at next level, right associativity).

Definition eval {A : Type} (m : Sys A) (s : System) : A := fst (m s).
Definition exec {A : Type} (m : Sys A) (s : System) : System := snd (m s).

(** The raw value the tick register shows at the [k]-th read from now. *)
Definition tick_reading (s : System) (k : nat) : Z :=
  wrap64 (tick_source s (tick_calls s + k)).

(** The system after one more read of the tick register. *)
Definition tick_consumed (s : System) : System :=
  mkSystem (tick_source s) (S (tick_calls s)) (memory s) (system_info s).

(** [u64 svcGetSystemTick(void)] (svc.h): one read of the tick register. *)
Definition svcGetSystemTick : Sys Z :=
  fun s => (tick_reading s 0, tick_consumed s).

(** [Result svcGetSystemInfo(s64* out, u32 type, s32 param)] (svc.h): the
    result code and the value left in [*out]. *)
Definition svcGetSystemInfo (type param : Z) : Sys (Z * Z) :=
  fun s => (system_info s type param, s).

(** [*(vu8* )addr]: one byte of the address space. *)
Definition load8 (addr : Z) : Sys Z :=
  fun s => (wrap8 (memory s addr), s).

(** [*(vu32* )addr]: four bytes, little-endian (ARM11). *)
Definition load32 (addr : Z) : Sys Z :=
  fun s =>
    (Z.lor (wrap8 (memory s addr))
       (Z.lor (Z.shiftl (wrap8 (memory s (wrap32 (addr + 1)))) 8)
          (Z.lor (Z.shiftl (wrap8 (memory s (wrap32 (addr + 2)))) 16)
             (Z.shiftl (wrap8 (memory s (wrap32 (addr + 3)))) 24))), s).

(** ** Clock rates (os.h lines 8-14) *)

Definition SYSCLOCK_SOC : Z := 16756991.
Definition SYSCLOCK_ARM9 : Z := SYSCLOCK_SOC * 8.
Definition SYSCLOCK_ARM11 : Z := SYSCLOCK_ARM9 * 2.
Definition SYSCLOCK_ARM11_NEW : Z := SYSCLOCK_ARM11 * 3.

(** Conversion of an integer to [double], rounding to nearest even. *)
Definition Z_to_double (z : Z) : float :=
  SF2Prim (binary_normalize prec emax z 0 false).

Definition CPU_TICKS_PER_MSEC : float :=
  PrimFloat.div (Z_to_double SYSCLOCK_ARM11) 1000%float.
Definition CPU_TICKS_PER_USEC : float :=
  PrimFloat.div (Z_to_double SYSCLOCK_ARM11) 1000000%float.

(** ** Tick counters (os.h lines 59-64, 181-206) *)

Record TickCounter : Type := mkTickCounter {
  elapsed : Z;
  reference : Z
}.

(** [cnt->reference = svcGetSystemTick();] *)
Definition osTickCounterStart (cnt : TickCounter) : Sys TickCounter :=
  now <- svcGetSystemTick ;;
  ret (mkTickCounter (elapsed cnt) now).

(** [u64 now = svcGetSystemTick(); cnt->elapsed = now - cnt->reference;
    cnt->reference = now;] *)
Definition osTickCounterUpdate (cnt : TickCounter) : Sys TickCounter :=
  now <- svcGetSystemTick ;;
  ret (mkTickCounter (sub64 now (reference cnt)) now).

(** Modelled from the spec: the body of [osTickCounterRead], which os.h
    only declares.  It "converts [elapsed] ticks to milliseconds by
    dividing by the fixed number of clock ticks per millisecond", in
    [double] arithmetic, and has no side effect: the counter is taken
    through a pointer to [const] and the system is not touched. *)
Definition osTickCounterRead (cnt : TickCounter) : float :=
  PrimFloat.div (Z_to_double (elapsed cnt)) CPU_TICKS_PER_MSEC.

(** ** System versions (os.h lines 16-27)

    The macros are untyped.  [SYSTEM_VERSION] below is the packing macro on
    [u32] operands, where shifts to the left wrap at 32 bits;
    [SYSTEM_VERSION_int], further down, is the same macro on [int]
    operands, as integer literals are.  The extraction macros are the same
    on both: [>>] is [Z.shiftr], which on a negative [int] is the
    arithmetic shift. *)

Definition SYSTEM_VERSION (major minor revision : Z) : Z :=
  Z.lor (Z.lor (shl32 major 24) (shl32 minor 16)) (shl32 revision 8).

Definition GET_VERSION_MAJOR (version : Z) : Z := shr32 version 24.
Definition GET_VERSION_MINOR (version : Z) : Z :=
  Z.land (shr32 version 16) 0xFF.
Definition GET_VERSION_REVISION (version : Z) : Z :=
  Z.land (shr32 version 8) 0xFF.

(** The value [SYSTEM_VERSION] denotes before any wrap-around. *)
Definition packed_version (major minor revision : Z) : Z :=
  Z.lor (Z.lor (Z.shiftl major 24) (Z.shiftl minor 16)) (Z.shiftl revision 8).

(** ** Address map (os.h lines 29-57) *)

Definition OS_HEAP_AREA_BEGIN : Z := 0x08000000.
Definition OS_HEAP_AREA_END : Z := 0x0E000000.
Definition OS_MAP_AREA_BEGIN : Z := 0x10000000.
Definition OS_MAP_AREA_END : Z := 0x14000000.

Definition OS_OLD_FCRAM_VADDR : Z := 0x14000000.
Definition OS_OLD_FCRAM_PADDR : Z := 0x20000000.
Definition OS_OLD_FCRAM_SIZE : Z := 0x8000000.

Definition OS_FCRAM_VADDR : Z := 0x30000000.
Definition OS_FCRAM_PADDR : Z := 0x20000000.
Definition OS_FCRAM_SIZE : Z := 0x10000000.

(** [base <= vaddr < base + size], as a test. *)
Definition in_area (base size vaddr : Z) : bool :=
  (base <=? vaddr) && (vaddr <? base + size).

(** Modelled from the spec: the body of [osConvertOldLINEARMemToNew],
    which os.h only declares.  "Given a virtual address in a legacy mapping
    range, returns the equivalent address in the current mapping range;
    returns the input unchanged if already in the current range, or a zero
    sentinel if outside both ranges."  The two ranges are the linear FCRAM
    mappings of the address map above; the equivalent address is the one
    at the same offset from the start of its mapping. *)
Definition osConvertOldLINEARMemToNew (vaddr : Z) : Z :=
  if in_area OS_OLD_FCRAM_VADDR OS_OLD_FCRAM_SIZE vaddr
  then wrap32 (vaddr - OS_OLD_FCRAM_VADDR + OS_FCRAM_VADDR)
  else if in_area OS_FCRAM_VADDR OS_FCRAM_SIZE vaddr
  then vaddr
  else 0.

(** The physical address behind a linear FCRAM virtual address, under the
    legacy and under the current mapping. *)
Definition old_linear_paddr (vaddr : Z) : Z :=
  vaddr - OS_OLD_FCRAM_VADDR + OS_OLD_FCRAM_PADDR.
Definition linear_paddr (vaddr : Z) : Z :=
  vaddr - OS_FCRAM_VADDR + OS_FCRAM_PADDR.

(** ** Configuration-memory reads (os.h lines 101-137, 208-226) *)

(** [~0xFF] as a 32-bit mask. *)
Definition LOW_BYTE_CLEAR : Z := 0xFFFFFF00.

(** [return ( *(vu32* )0x1FF80060) & ~0xFF;] *)
Definition osGetFirmVersion : Sys Z :=
  v <- load32 0x1FF80060 ;; ret (Z.land v LOW_BYTE_CLEAR).

(** [return ( *(vu32* )0x1FF80000) & ~0xFF;] *)
Definition osGetKernelVersion : Sys Z :=
  v <- load32 0x1FF80000 ;; ret (Z.land v LOW_BYTE_CLEAR).

(** [return *(vu32* )0x1FF80010;] *)
Definition osGetSystemCoreVersion : Sys Z := load32 0x1FF80010.

(** [return *(vu32* )0x1FF80030;] *)
Definition osGetApplicationMemType : Sys Z := load32 0x1FF80030.

(** [return *(vu8* )0x1FF81066;] *)
Definition osGetWifiStrength : Sys Z := load8 0x1FF81066.

(** ** Memory regions (os.h lines 139-173) *)

(** Modelled from the spec: the [MemRegion] enumeration, declared in svc.h:
    a "region selector (enumerated: total, application, system, base)",
    numbered from 0 in that order. *)
Inductive MemRegion : Type :=
| MEMREGION_ALL
| MEMREGION_APPLICATION
| MEMREGION_SYSTEM
| MEMREGION_BASE.

Definition MemRegion_value (region : MemRegion) : Z :=
  match region with
  | MEMREGION_ALL => 0
  | MEMREGION_APPLICATION => 1
  | MEMREGION_SYSTEM => 2
  | MEMREGION_BASE => 3
  end.

(** How deep [osGetMemRegionSize] calls itself on a selector. *)
Definition region_depth (region : MemRegion) : nat :=
  match region with
  | MEMREGION_ALL => 1
  | _ => 0
  end.

(** [if(region == MEMREGION_ALL) return osGetMemRegionSize(APPLICATION)
      + osGetMemRegionSize(SYSTEM) + osGetMemRegionSize(BASE);
    else return *(vu32* ) (0x1FF80040 + (region - 1) * 0x4);] *)
Equations osGetMemRegionSize (region : MemRegion) : Sys Z
  by wf (region_depth region) lt :=
  osGetMemRegionSize MEMREGION_ALL :=
    a <- osGetMemRegionSize MEMREGION_APPLICATION ;;
    b <- osGetMemRegionSize MEMREGION_SYSTEM ;;
    c <- osGetMemRegionSize MEMREGION_BASE ;;
    ret (add32 (add32 a b) c);
  osGetMemRegionSize region :=
    load32 (wrap32 (0x1FF80040 + (MemRegion_value region - 1) * 0x4)).

(** [s64 mem_used; svcGetSystemInfo(&mem_used, 0, region);
    return mem_used;]: the result code is dropped and the 64-bit value is
    truncated to [u32]. *)
Definition osGetMemRegionUsed (region : MemRegion) : Sys Z :=
  r <- svcGetSystemInfo 0 (MemRegion_value region) ;;
  ret (wrap32 (snd r)).

(** [return osGetMemRegionSize(region) - osGetMemRegionUsed(region);] *)
Definition osGetMemRegionFree (region : MemRegion) : Sys Z :=
  size <- osGetMemRegionSize region ;;
  used <- osGetMemRegionUsed region ;;
  ret (sub32 size used).

(** ** System version data (os.h lines 66-75, 243-249) *)

Record OS_VersionBin : Type := mkVersionBin {
  build : Z;
  minor : Z;
  mainver : Z;
  reserved_x3 : Z;
  region : Z;
  reserved_x5 : Z * Z * Z
}.

(** What reading one on-device version record can give: the record, a
    standard I/O failure number, or a platform result code. *)
Inductive version_read : Type :=
| ReadOk (v : OS_VersionBin)
| ReadStdioError (errno : Z)
| ReadPlatformError (rc : Z).

(** The device's two version records, as their reads turn out. *)
Record VersionStore : Type := mkVersionStore {
  nver_read : version_read;
  cver_read : version_read
}.

(** Failure numbers of standard I/O are positive [int]s; failing platform
    result codes are negative [s32]s. *)
Definition version_read_wf (r : version_read) : Prop :=
  match r with
  | ReadOk _ => True
  | ReadStdioError errno => 0 < errno < 2 ^ 31
  | ReadPlatformError rc => - 2 ^ 31 <= rc < 0
  end.

Definition VersionStore_wf (st : VersionStore) : Prop :=
  version_read_wf (nver_read st) /\ version_read_wf (cver_read st).

(** The outcome of the retrieval: either both records, or the result code
    of the read that failed. *)
Definition VersionData : Type := (OS_VersionBin * OS_VersionBin) + Z.

Definition bind_read {A : Type} (r : version_read)
    (k : OS_VersionBin -> A + Z) : A + Z :=
  match r with
  | ReadOk v => k v
  | ReadStdioError errno => inr errno
  | ReadPlatformError rc => inr rc
  end.

(** Modelled from the spec: the body of [osGetSystemVersionData], which
    os.h only declares.  It "reads two on-device version records, returning
    a structured result; can fail when the underlying storage read fails,
    surfacing either a filesystem-style error number (positive) or a
    negative platform-specific error code".  NVer is read first and CVer
    only after it, so the first failure is the one reported. *)
Definition osGetSystemVersionData (st : VersionStore) : VersionData :=
  bind_read (nver_read st) (fun nver =>
  bind_read (cver_read st) (fun cver =>
  inl (nver, cver))).

(** The [Result] the C function returns: zero with the records filled in,
    or the failing read's code. *)
Definition result_code (d : VersionData) : Z :=
  match d with
  | inl _ => 0
  | inr rc => rc
  end.

(** One of the two reads failed in standard I/O with number [e]. *)
Definition stdio_failure (st : VersionStore) (e : Z) : Prop :=
  nver_read st = ReadStdioError e \/ cver_read st = ReadStdioError e.

(** One of the two reads failed with platform code [rc]. *)
Definition platform_failure (st : VersionStore) (rc : Z) : Prop :=
  nver_read st = ReadPlatformError rc \/ cver_read st = ReadPlatformError rc.

(** Both reads gave a record. *)
Definition retrieval_succeeds (st : VersionStore) : Prop :=
  exists nver cver, nver_read st = ReadOk nver /\ cver_read st = ReadOk cver.

(** ** Runs and sample systems used in the statements below *)

(** Start then update; start then two updates; two updates in a row. *)
Definition start_update (cnt : TickCounter) : Sys TickCounter :=
  c0 <- osTickCounterStart cnt ;; osTickCounterUpdate c0.

Definition start_update_update (cnt : TickCounter) : Sys TickCounter :=
  c0 <- osTickCounterStart cnt ;;
  c1 <- osTickCounterUpdate c0 ;;
  osTickCounterUpdate c1.

Definition update_update (cnt : TickCounter) : Sys TickCounter :=
  c0 <- osTickCounterUpdate cnt ;; osTickCounterUpdate c0.

(** A system whose tick register shows [t0], [t1], [t2] and then stays at
    [t2], whose memory holds [byte] everywhere and whose kernel reports
    [used] bytes for every query. *)
Definition sample_system (t0 t1 t2 byte used : Z) : System :=
  mkSystem
    (fun k => match k with O => t0 | S O => t1 | _ => t2 end)
    O
    (fun _ => byte)
    (fun _ _ => (0, used)).

Definition fresh_counter : TickCounter := mkTickCounter 0 0.

(** [x] and [y] differ by less than 2^-40 (about 1e-12). *)
Definition within_tolerance (x y : float) : bool :=
  PrimFloat.ltb (PrimFloat.abs (PrimFloat.sub x y)) 0x1p-40%float.

(** Two version records and stores for the statements below. *)
Definition sample_nver : OS_VersionBin := mkVersionBin 0 0 37 0 69 (0, 0, 0).
Definition sample_cver : OS_VersionBin := mkVersionBin 50 0 11 0 69 (0, 0, 0).

Definition good_store : VersionStore :=
  mkVersionStore (ReadOk sample_nver) (ReadOk sample_cver).
Definition stdio_failing_store : VersionStore :=
  mkVersionStore (ReadOk sample_nver) (ReadStdioError 2).
Definition platform_failing_store : VersionStore :=
  mkVersionStore (ReadPlatformError (-10)) (ReadOk sample_cver).

(** ** The rest of the address map (os.h lines 39-53) *)

Definition OS_QTMRAM_VADDR : Z := 0x1E800000.
Definition OS_QTMRAM_PADDR : Z := 0x1F000000.
Definition OS_QTMRAM_SIZE : Z := 0x400000.

Definition OS_MMIO_VADDR : Z := 0x1EC00000.
Definition OS_MMIO_PADDR : Z := 0x10100000.
Definition OS_MMIO_SIZE : Z := 0x400000.

Definition OS_VRAM_VADDR : Z := 0x1F000000.
Definition OS_VRAM_PADDR : Z := 0x18000000.
Definition OS_VRAM_SIZE : Z := 0x600000.

Definition OS_DSPRAM_VADDR : Z := 0x1FF00000.
Definition OS_DSPRAM_PADDR : Z := 0x1FF00000.
Definition OS_DSPRAM_SIZE : Z := 0x80000.

(** The virtual ranges the header names, as (start, size): the heap and
    mappable areas, then the six mappings. *)
Definition os_virtual_areas : list (Z * Z) :=
  [ (OS_HEAP_AREA_BEGIN, OS_HEAP_AREA_END - OS_HEAP_AREA_BEGIN);
    (OS_MAP_AREA_BEGIN, OS_MAP_AREA_END - OS_MAP_AREA_BEGIN);
    (OS_OLD_FCRAM_VADDR, OS_OLD_FCRAM_SIZE);
    (OS_QTMRAM_VADDR, OS_QTMRAM_SIZE);
    (OS_MMIO_VADDR, OS_MMIO_SIZE);
    (OS_VRAM_VADDR, OS_VRAM_SIZE);
    (OS_DSPRAM_VADDR, OS_DSPRAM_SIZE);
    (OS_FCRAM_VADDR, OS_FCRAM_SIZE) ].

(** The areas of [os_virtual_areas] that contain [vaddr]. *)
Definition areas_of (vaddr : Z) : list (Z * Z) :=
  filter (fun a => in_area (fst a) (snd a) vaddr) os_virtual_areas.

(** The five mappings in force, as (virtual start, physical start, size);
    the legacy FCRAM mapping is left out, being an alias of the last. *)
Definition os_mappings : list (Z * Z * Z) :=
  [ (OS_QTMRAM_VADDR, OS_QTMRAM_PADDR, OS_QTMRAM_SIZE);
    (OS_MMIO_VADDR, OS_MMIO_PADDR, OS_MMIO_SIZE);
    (OS_VRAM_VADDR, OS_VRAM_PADDR, OS_VRAM_SIZE);
    (OS_DSPRAM_VADDR, OS_DSPRAM_PADDR, OS_DSPRAM_SIZE);
    (OS_FCRAM_VADDR, OS_FCRAM_PADDR, OS_FCRAM_SIZE) ].

(** ** A caller's sampling loop

    [n] calls of [osTickCounterUpdate] in a row on one counter, keeping the
    [elapsed] value each call leaves, oldest first. *)
Fixpoint sample_intervals (n : nat) (cnt : TickCounter)
  : Sys (list Z * TickCounter) :=
  match n with
  | O => ret ([], cnt)
  | S n' =>
      c <- osTickCounterUpdate cnt ;;
      r <- sample_intervals n' c ;;
      ret (elapsed c :: fst r, snd r)
  end.

(** The sum of a list of tick counts. *)
Definition total_ticks (l : list Z) : Z := fold_right Z.add 0 l.

(** The 32-bit word the four bytes from [addr] on spell, low byte first. *)
Definition word_at (s : System) (addr : Z) : Z :=
  wrap8 (memory s addr)
  + wrap8 (memory s (wrap32 (addr + 1))) * 2 ^ 8
  + wrap8 (memory s (wrap32 (addr + 2))) * 2 ^ 16
  + wrap8 (memory s (wrap32 (addr + 3))) * 2 ^ 24.

(** The value the kernel leaves in [*out] for a memory-usage query. *)
Definition reported_used (s : System) (region : MemRegion) : Z :=
  snd (system_info s 0 (MemRegion_value region)).

(** Versions ordered by major, then minor, then revision number. *)
Definition version_lt (a b c a' b' c' : Z) : Prop :=
  a < a' \/ (a = a' /\ (b < b' \/ (b = b' /\ c < c'))).

(** A system that differs from [sample_system 0 0 0 5 0] in its tick
    register, in its kernel answers and in every byte outside the three
    region-size words. *)
Definition other_system : System :=
  mkSystem
    (fun _ => 12345)
    7%nat
    (fun a => if (0x1FF80040 <=? a) && (a <=? 0x1FF8004B) then 5 else 0xEE)
    (fun _ _ => (-1, 99)).

(** A system whose three regions hold 0x01010101 bytes each and whose
    kernel reports 7 bytes used in each region and 21 in all. *)
Definition accounting_system : System :=
  mkSystem
    (fun _ => 0)
    O
    (fun _ => 1)
    (fun _ param => (0, if param =? 0 then 21 else 7)).

(** Whether a mapping (virtual start, physical start, size) covers a
    virtual address, and the physical address it gives it. *)
Definition mapping_covers (m : Z * Z * Z) (vaddr : Z) : bool :=
  in_area (fst (fst m)) (snd m) vaddr.
Definition mapping_paddr (m : Z * Z * Z) (vaddr : Z) : Z :=
  vaddr - fst (fst m) + snd (fst m).

(** ** The packing macro on [int] operands

    [int] values are integers in [-2^31, 2^31).  A shift to the left that
    leaves the range wraps in two's complement, as the ARM compilers the
    library is built with make it. *)
Definition wrap_s32 (z : Z) : Z := (z + 2 ^ 31) mod 2 ^ 32 - 2 ^ 31.
Definition shl_int (a n : Z) : Z := wrap_s32 (Z.shiftl a n).

(** [(((major)<<24)|((minor)<<16)|((revision)<<8))] on [int] operands, as
    in the header's own [SYSTEM_VERSION(2,46,0)]. *)
Definition SYSTEM_VERSION_int (major minor revision : Z) : Z :=
  Z.lor (Z.lor (shl_int major 24) (shl_int minor 16)) (shl_int revision 8).

(** ** The Wi-Fi level the system keeps (os.h lines 208-222)

    "Valid values are 0-3": the byte the system stores at 0x1FF81066 is
    the number of Wi-Fi bars, from 0 to 3. *)
Definition wifi_level_valid (s : System) : Prop :=
  0 <= wrap8 (memory s 0x1FF81066) <= 3.

(** A byte read as a signed 8-bit number: what an [int] holds in its top
    byte when that byte is [a]. *)
Definition signed_byte (a : Z) : Z := if a <? 128 then a else a - 256.

(** * Properties *)

(** ** Machine integers *)

Lemma wrap64_range (z : Z) : is_u64 (wrap64 z).
Proof. unfold is_u64, wrap64. apply Z.mod_pos_bound. lia. Qed.

Lemma wrap32_range (z : Z) : is_u32 (wrap32 z).
Proof. unfold is_u32, wrap32. apply Z.mod_pos_bound. lia. Qed.

Lemma wrap8_range (z : Z) : is_u8 (wrap8 z).
Proof. unfold is_u8, wrap8. apply Z.mod_pos_bound. lia. Qed.

Lemma wrap64_small (z : Z) : is_u64 z -> wrap64 z = z.
Proof. unfold is_u64, wrap64. intros H. apply Z.mod_small. exact H. Qed.

Lemma wrap32_small (z : Z) : is_u32 z -> wrap32 z = z.
Proof. unfold is_u32, wrap32. intros H. apply Z.mod_small. exact H. Qed.

(** Subtracting a reference from the sample taken [d] ticks later gives
    [d], whether or not the register wrapped in between. *)
Lemma sub64_forward (t0 d : Z) :
  0 <= d < 2 ^ 64 -> sub64 (wrap64 (t0 + d)) t0 = d.
Proof.
  intros Hd. unfold sub64, wrap64.
  rewrite Zminus_mod_idemp_l.
  replace (t0 + d - t0) with d by ring.
  apply Z.mod_small. exact Hd.
Qed.

(** ** Tick counters *)

Lemma tick_reading_range (s : System) (k : nat) : is_u64 (tick_reading s k).
Proof. apply wrap64_range. Qed.

Lemma tick_reading_consumed (s : System) (k : nat) :
  tick_reading (tick_consumed s) k = tick_reading s (S k).
Proof.
  unfold tick_reading, tick_consumed. cbn [tick_source tick_calls].
  f_equal. f_equal. lia.
Qed.

Lemma osTickCounterStart_run (cnt : TickCounter) (s : System) :
  osTickCounterStart cnt s =
  (mkTickCounter (elapsed cnt) (tick_reading s 0), tick_consumed s).
Proof. reflexivity. Qed.

Lemma osTickCounterUpdate_run (cnt : TickCounter) (s : System) :
  osTickCounterUpdate cnt s =
  (mkTickCounter (sub64 (tick_reading s 0) (reference cnt)) (tick_reading s 0),
   tick_consumed s).
Proof. reflexivity. Qed.

Lemma eval_bind {A B : Type} (m : Sys A) (k : A -> Sys B) (s : System) :
  eval (bind m k) s = eval (k (eval m s)) (exec m s).
Proof. unfold eval, exec, bind. destruct (m s) as [a s']. reflexivity. Qed.

Lemma exec_bind {A B : Type} (m : Sys A) (k : A -> Sys B) (s : System) :
  exec (bind m k) s = exec (k (eval m s)) (exec m s).
Proof. unfold eval, exec, bind. destruct (m s) as [a s']. reflexivity. Qed.

Lemma eval_start (cnt : TickCounter) (s : System) :
  eval (osTickCounterStart cnt) s = mkTickCounter (elapsed cnt) (tick_reading s 0).
Proof. reflexivity. Qed.

Lemma exec_start (cnt : TickCounter) (s : System) :
  exec (osTickCounterStart cnt) s = tick_consumed s.
Proof. reflexivity. Qed.

Lemma eval_update (cnt : TickCounter) (s : System) :
  eval (osTickCounterUpdate cnt) s =
  mkTickCounter (sub64 (tick_reading s 0) (reference cnt)) (tick_reading s 0).
Proof. reflexivity. Qed.

Lemma exec_update (cnt : TickCounter) (s : System) :
  exec (osTickCounterUpdate cnt) s = tick_consumed s.
Proof. reflexivity. Qed.

Lemma eval_start_update (cnt : TickCounter) (s : System) :
  eval (start_update cnt) s =
  mkTickCounter (sub64 (tick_reading s 1) (tick_reading s 0)) (tick_reading s 1).
Proof.
  unfold start_update.
  rewrite eval_bind, exec_start, eval_start, eval_update, tick_reading_consumed.
  reflexivity.
Qed.

Lemma eval_start_update_update (cnt : TickCounter) (s : System) :
  eval (start_update_update cnt) s =
  mkTickCounter (sub64 (tick_reading s 2) (tick_reading s 1)) (tick_reading s 2).
Proof.
  unfold start_update_update.
  rewrite eval_bind, exec_start, eval_start.
  rewrite eval_bind, exec_update, eval_update, eval_update.
  rewrite !tick_reading_consumed. reflexivity.
Qed.

Lemma eval_update_update (cnt : TickCounter) (s : System) :
  eval (update_update cnt) s =
  mkTickCounter (sub64 (tick_reading s 1) (tick_reading s 0)) (tick_reading s 1).
Proof.
  unfold update_update.
  rewrite eval_bind, exec_update, eval_update, eval_update, tick_reading_consumed.
  reflexivity.
Qed.

(** C1.  When the tick source reads [t0] at [osTickCounterStart] and
    [t1 >= t0] at the following [osTickCounterUpdate], the counter is left
    with [elapsed = t1 - t0] and [reference = t1]; when it reads
    [t2 >= t1] at a second update, the counter is left with
    [elapsed = t2 - t1] and [reference = t2]: each elapsed value spans its
    own interval only. *)
Theorem tick_counter_intervals (s : System) (cnt : TickCounter) (t0 t1 t2 : Z) :
  tick_reading s 0 = t0 ->
  tick_reading s 1 = t1 ->
  tick_reading s 2 = t2 ->
  t0 <= t1 ->
  (elapsed (eval (start_update cnt) s) = t1 - t0 /\
   reference (eval (start_update cnt) s) = t1) /\
  (t1 <= t2 ->
   elapsed (eval (start_update_update cnt) s) = t2 - t1 /\
   reference (eval (start_update_update cnt) s) = t2).
Proof.
  intros H0 H1 H2 H01.
  pose proof (tick_reading_range s 0) as R0.
  pose proof (tick_reading_range s 1) as R1.
  pose proof (tick_reading_range s 2) as R2.
  rewrite H0 in R0. rewrite H1 in R1. rewrite H2 in R2.
  rewrite eval_start_update, eval_start_update_update.
  cbn [elapsed reference]. rewrite H0, H1, H2.
  unfold is_u64 in R0, R1, R2.
  split; [split; [| reflexivity] | intros H12; split; [| reflexivity]].
  - unfold sub64. apply wrap64_small. unfold is_u64. lia.
  - unfold sub64. apply wrap64_small. unfold is_u64. lia.
Qed.

(** The intervals of a tick source reading 100, 250, 1000. *)
Lemma tick_counter_intervals_witness :
  (elapsed (eval (start_update fresh_counter) (sample_system 100 250 1000 0 0)) = 250 - 100 /\
   reference (eval (start_update fresh_counter) (sample_system 100 250 1000 0 0)) = 250) /\
  (250 <= 1000 ->
   elapsed (eval (start_update_update fresh_counter) (sample_system 100 250 1000 0 0)) = 1000 - 250 /\
   reference (eval (start_update_update fresh_counter) (sample_system 100 250 1000 0 0)) = 1000).
Proof.
  apply (tick_counter_intervals (sample_system 100 250 1000 0 0) fresh_counter 100 250 1000).
  - reflexivity.
  - reflexivity.
  - reflexivity.
  - lia.
Defined.

(** C2.  When the tick register has wrapped modulo 2^64 between the call
    that stored the reference ([osTickCounterStart] or an earlier
    [osTickCounterUpdate]) and the next [osTickCounterUpdate], so that the
    later raw sample is below the reference, the update still leaves in
    [elapsed] the number [d] of ticks that went by, which is the later
    sample plus 2^64 minus the reference. *)
Theorem tick_counter_wraparound (s : System) (cnt : TickCounter) (t0 d : Z) :
  0 <= d < 2 ^ 64 ->
  tick_reading s 0 = t0 ->
  tick_reading s 1 = wrap64 (t0 + d) ->
  tick_reading s 1 < t0 ->
  elapsed (eval (start_update cnt) s) = d /\
  elapsed (eval (update_update cnt) s) = d /\
  d = tick_reading s 1 + 2 ^ 64 - t0.
Proof.
  intros Hd H0 H1 Hwrapped.
  rewrite eval_start_update, eval_update_update. cbn [elapsed].
  rewrite H0, H1, sub64_forward by exact Hd.
  split; [reflexivity | split; [reflexivity |]].
  pose proof (tick_reading_range s 0) as R0. rewrite H0 in R0.
  rewrite H1 in Hwrapped. unfold is_u64 in R0.
  unfold wrap64 in *.
  assert (Hq : (t0 + d) / 2 ^ 64 = 1).
  { assert (t0 + d < 2 ^ 64 \/ 2 ^ 64 <= t0 + d) as [Hlt | Hge] by lia.
    - rewrite Z.mod_small in Hwrapped by lia. lia.
    - symmetry. apply (Z.div_unique (t0 + d) (2 ^ 64) 1 (t0 + d - 2 ^ 64)); lia. }
  pose proof (Z.div_mod (t0 + d) (2 ^ 64)) as E.
  rewrite Hq in E. lia.
Qed.

(** A register five ticks before the wrap, read again twelve ticks later. *)
Lemma tick_counter_wraparound_witness :
  elapsed (eval (start_update fresh_counter)
             (sample_system (2 ^ 64 - 5) 7 7 0 0)) = 12 /\
  elapsed (eval (update_update fresh_counter)
             (sample_system (2 ^ 64 - 5) 7 7 0 0)) = 12 /\
  12 = tick_reading (sample_system (2 ^ 64 - 5) 7 7 0 0) 1 + 2 ^ 64 - (2 ^ 64 - 5).
Proof.
  apply (tick_counter_wraparound (sample_system (2 ^ 64 - 5) 7 7 0 0)
           fresh_counter (2 ^ 64 - 5) 12).
  - lia.
  - reflexivity.
  - reflexivity.
  - vm_compute. reflexivity.
Defined.

(** C3.  [osTickCounterStart] overwrites the [reference] field with the
    current value of the tick source and leaves the [elapsed] field as it
    was. *)
Theorem osTickCounterStart_frame (s : System) (cnt : TickCounter) :
  elapsed (eval (osTickCounterStart cnt) s) = elapsed cnt /\
  reference (eval (osTickCounterStart cnt) s) = tick_reading s 0.
Proof. rewrite eval_start. split; reflexivity. Qed.

(** ** Conversion to milliseconds *)

Lemma SYSCLOCK_ARM11_value : SYSCLOCK_ARM11 = 268111856.
Proof. reflexivity. Qed.

Lemma SYSCLOCK_ARM11_NEW_value : SYSCLOCK_ARM11_NEW = 804335568.
Proof. reflexivity. Qed.

(** [osTickCounterRead] looks at the [elapsed] field only. *)
Lemma osTickCounterRead_elapsed (c1 c2 : TickCounter) :
  elapsed c1 = elapsed c2 -> osTickCounterRead c1 = osTickCounterRead c2.
Proof. unfold osTickCounterRead. intros E. rewrite E. reflexivity. Qed.

(** In [double] arithmetic the quotient for one second's worth of ticks is
    the last [double] below 1000.0, not 1000.0 itself. *)
Lemma one_second_reads_just_below_1000 :
  osTickCounterRead (mkTickCounter 268111856 0) = PrimFloat.next_down 1000%float.
Proof. vm_compute. reflexivity. Qed.

(** C4.  A counter holding [elapsed = 268111856] reads as 1000.0
    milliseconds within floating-point tolerance: the conversion divides by
    [CPU_TICKS_PER_MSEC], which is 268111856 / 1000.0, 268111856 being
    [SYSCLOCK_ARM11], the clock rate in ticks per second. *)
Theorem osTickCounterRead_one_second (cnt : TickCounter) :
  elapsed cnt = 268111856 ->
  SYSCLOCK_ARM11 = 268111856 /\
  CPU_TICKS_PER_MSEC = PrimFloat.div (Z_to_double 268111856) 1000%float /\
  osTickCounterRead cnt = PrimFloat.div (Z_to_double (elapsed cnt)) CPU_TICKS_PER_MSEC /\
  within_tolerance (osTickCounterRead cnt) 1000%float = true.
Proof.
  intros E.
  split; [reflexivity | split; [reflexivity | split; [reflexivity |]]].
  rewrite (osTickCounterRead_elapsed cnt (mkTickCounter 268111856 0)) by exact E.
  vm_compute. reflexivity.
Qed.

(** One second of ticks on a counter whose reference is 42. *)
Lemma osTickCounterRead_one_second_witness :
  SYSCLOCK_ARM11 = 268111856 /\
  CPU_TICKS_PER_MSEC = PrimFloat.div (Z_to_double 268111856) 1000%float /\
  osTickCounterRead (mkTickCounter 268111856 42) =
    PrimFloat.div (Z_to_double (elapsed (mkTickCounter 268111856 42))) CPU_TICKS_PER_MSEC /\
  within_tolerance (osTickCounterRead (mkTickCounter 268111856 42)) 1000%float = true.
Proof.
  apply (osTickCounterRead_one_second (mkTickCounter 268111856 42)).
  reflexivity.
Defined.

(** C5.  [osTickCounterRead] is a function of the [elapsed] field alone:
    counters with the same [elapsed] read the same, so reading twice
    with no update in between gives the same value twice, also across an
    [osTickCounterStart]; and when the tick source does not advance
    between [osTickCounterStart] and [osTickCounterUpdate], [elapsed] is 0
    and the counter reads 0.0. *)
Theorem osTickCounterRead_pure (s : System) (cnt : TickCounter) :
  tick_reading s 1 = tick_reading s 0 ->
  (forall c : TickCounter,
     elapsed c = elapsed cnt -> osTickCounterRead c = osTickCounterRead cnt) /\
  osTickCounterRead (eval (osTickCounterStart cnt) s) = osTickCounterRead cnt /\
  elapsed (eval (start_update cnt) s) = 0 /\
  osTickCounterRead (eval (start_update cnt) s) = 0%float.
Proof.
  intros Hsame.
  assert (E0 : elapsed (eval (start_update cnt) s) = 0).
  { rewrite eval_start_update. cbn [elapsed]. rewrite Hsame.
    unfold sub64. rewrite Z.sub_diag. reflexivity. }
  split; [| split; [| split]].
  - intros c E. apply osTickCounterRead_elapsed. exact E.
  - apply osTickCounterRead_elapsed. rewrite eval_start. reflexivity.
  - exact E0.
  - rewrite (osTickCounterRead_elapsed _ (mkTickCounter 0 0)) by exact E0.
    vm_compute. reflexivity.
Qed.

(** A tick source that reads 500 twice. *)
Lemma osTickCounterRead_pure_witness :
  (forall c : TickCounter,
     elapsed c = elapsed (mkTickCounter 77 3) ->
     osTickCounterRead c = osTickCounterRead (mkTickCounter 77 3)) /\
  osTickCounterRead
    (eval (osTickCounterStart (mkTickCounter 77 3)) (sample_system 500 500 900 0 0)) =
    osTickCounterRead (mkTickCounter 77 3) /\
  elapsed (eval (start_update (mkTickCounter 77 3)) (sample_system 500 500 900 0 0)) = 0 /\
  osTickCounterRead
    (eval (start_update (mkTickCounter 77 3)) (sample_system 500 500 900 0 0)) = 0%float.
Proof.
  apply (osTickCounterRead_pure (sample_system 500 500 900 0 0) (mkTickCounter 77 3)).
  reflexivity.
Defined.

(** ** Configuration-memory reads *)

Lemma load8_run (addr : Z) (s : System) :
  load8 addr s = (wrap8 (memory s addr), s).
Proof. reflexivity. Qed.

(** [osGetWifiStrength] is a bare read: it returns the byte stored at
    virtual address 0x1FF81066 as it is and changes nothing. *)
Lemma osGetWifiStrength_reads_byte (s : System) :
  eval osGetWifiStrength s = wrap8 (memory s 0x1FF81066) /\
  exec osGetWifiStrength s = s /\
  0 <= eval osGetWifiStrength s <= 255.
Proof.
  unfold osGetWifiStrength, eval, exec. rewrite load8_run. cbn [fst snd].
  pose proof (wrap8_range (memory s 0x1FF81066)) as R. unfold is_u8 in R.
  repeat split; lia.
Qed.



(** ** Linear-memory address remap *)

Lemma in_area_spec (base size vaddr : Z) :
  in_area base size vaddr = true <-> base <= vaddr < base + size.
Proof.
  unfold in_area. rewrite andb_true_iff, Z.leb_le, Z.ltb_lt. reflexivity.
Qed.

Lemma in_area_false (base size vaddr : Z) :
  in_area base size vaddr = false <-> ~ (base <= vaddr < base + size).
Proof.
  rewrite <- in_area_spec. destruct (in_area base size vaddr); split; congruence.
Qed.

(** C7.  [osConvertOldLINEARMemToNew] sends an address of the legacy
    linear mapping (from 0x14000000) to the address of the current linear
    mapping (from 0x30000000) at the same offset, which lies in the current
    range and has the same physical address; it returns an address of the
    current range unchanged; and it returns 0 for any other address. *)
Theorem osConvertOldLINEARMemToNew_cases (vaddr : Z) :
  (OS_OLD_FCRAM_VADDR <= vaddr < OS_OLD_FCRAM_VADDR + OS_OLD_FCRAM_SIZE ->
   osConvertOldLINEARMemToNew vaddr = vaddr - 0x14000000 + 0x30000000 /\
   OS_FCRAM_VADDR <= osConvertOldLINEARMemToNew vaddr < OS_FCRAM_VADDR + OS_FCRAM_SIZE /\
   linear_paddr (osConvertOldLINEARMemToNew vaddr) = old_linear_paddr vaddr) /\
  (OS_FCRAM_VADDR <= vaddr < OS_FCRAM_VADDR + OS_FCRAM_SIZE ->
   osConvertOldLINEARMemToNew vaddr = vaddr) /\
  (~ (OS_OLD_FCRAM_VADDR <= vaddr < OS_OLD_FCRAM_VADDR + OS_OLD_FCRAM_SIZE) ->
   ~ (OS_FCRAM_VADDR <= vaddr < OS_FCRAM_VADDR + OS_FCRAM_SIZE) ->
   osConvertOldLINEARMemToNew vaddr = 0).
Proof.
  unfold osConvertOldLINEARMemToNew.
  split; [| split].
  - intros Hold.
    rewrite (proj2 (in_area_spec _ _ _) Hold).
    unfold OS_OLD_FCRAM_VADDR, OS_OLD_FCRAM_SIZE in Hold.
    assert (E : wrap32 (vaddr - OS_OLD_FCRAM_VADDR + OS_FCRAM_VADDR) =
                vaddr - 0x14000000 + 0x30000000).
    { apply wrap32_small.
      unfold is_u32, OS_OLD_FCRAM_VADDR, OS_FCRAM_VADDR. lia. }
    rewrite E.
    unfold linear_paddr, old_linear_paddr, OS_FCRAM_VADDR, OS_FCRAM_SIZE,
      OS_FCRAM_PADDR, OS_OLD_FCRAM_VADDR, OS_OLD_FCRAM_PADDR.
    lia.
  - intros Hnew.
    assert (Hold : in_area OS_OLD_FCRAM_VADDR OS_OLD_FCRAM_SIZE vaddr = false).
    { apply in_area_false.
      unfold OS_FCRAM_VADDR, OS_FCRAM_SIZE in Hnew.
      unfold OS_OLD_FCRAM_VADDR, OS_OLD_FCRAM_SIZE. lia. }
    rewrite Hold, (proj2 (in_area_spec _ _ _) Hnew). reflexivity.
  - intros Hold Hnew.
    rewrite (proj2 (in_area_false _ _ _) Hold), (proj2 (in_area_false _ _ _) Hnew).
    reflexivity.
Qed.

Example osConvertOldLINEARMemToNew_legacy :
  osConvertOldLINEARMemToNew 0x14001000 = 0x30001000.
Proof. reflexivity. Qed.

Example osConvertOldLINEARMemToNew_current :
  osConvertOldLINEARMemToNew 0x3FFFFFFF = 0x3FFFFFFF.
Proof. reflexivity. Qed.

Example osConvertOldLINEARMemToNew_outside :
  osConvertOldLINEARMemToNew 0x1C000000 = 0 /\
  osConvertOldLINEARMemToNew 0x08000000 = 0 /\
  osConvertOldLINEARMemToNew 0x40000000 = 0.
Proof. repeat split; reflexivity. Qed.

(** ** System version data *)

Lemma result_code_cases (st : VersionStore) :
  match nver_read st, cver_read st with
  | ReadOk nver, ReadOk cver =>
      osGetSystemVersionData st = inl (nver, cver)
  | ReadOk _, ReadStdioError e => osGetSystemVersionData st = inr e
  | ReadOk _, ReadPlatformError rc => osGetSystemVersionData st = inr rc
  | ReadStdioError e, _ => osGetSystemVersionData st = inr e
  | ReadPlatformError rc, _ => osGetSystemVersionData st = inr rc
  end.
Proof.
  unfold osGetSystemVersionData.
  destruct (nver_read st); [destruct (cver_read st) | |]; reflexivity.
Qed.

(** C8.  The result code of [osGetSystemVersionData] is zero exactly when
    the retrieval succeeds; a positive code is the standard I/O failure
    number of a read that failed, and a negative code is the platform
    failure code of a read that failed. *)
Theorem osGetSystemVersionData_result (st : VersionStore) :
  VersionStore_wf st ->
  is_s32 (result_code (osGetSystemVersionData st)) /\
  (result_code (osGetSystemVersionData st) = 0 <-> retrieval_succeeds st) /\
  (0 < result_code (osGetSystemVersionData st) ->
   stdio_failure st (result_code (osGetSystemVersionData st))) /\
  (result_code (osGetSystemVersionData st) < 0 ->
   platform_failure st (result_code (osGetSystemVersionData st))).
Proof.
  intros [Hn Hc].
  pose proof (result_code_cases st) as Hrun.
  unfold retrieval_succeeds, stdio_failure, platform_failure, is_s32.
  destruct (nver_read st) as [nver | e | rc] eqn:En;
    [destruct (cver_read st) as [cver | e | rc] eqn:Ec | |];
    rewrite Hrun; cbn [result_code]; cbn [version_read_wf] in Hn, Hc.
  - repeat split; try lia.
    exists nver, cver. split; reflexivity.
  - repeat split; try lia.
    + intros [n' [c' [_ Habs]]]. discriminate Habs.
    + intros _. right. reflexivity.
  - repeat split; try lia.
    + intros [n' [c' [_ Habs]]]. discriminate Habs.
    + intros _. right. reflexivity.
  - repeat split; try lia.
    + intros [n' [c' [Habs _]]]. discriminate Habs.
    + intros _. left. reflexivity.
  - repeat split; try lia.
    + intros [n' [c' [Habs _]]]. discriminate Habs.
    + intros _. left. reflexivity.
Qed.

(** A store whose CVer read fails in standard I/O. *)
Lemma osGetSystemVersionData_result_witness :
  is_s32 (result_code (osGetSystemVersionData stdio_failing_store)) /\
  (result_code (osGetSystemVersionData stdio_failing_store) = 0 <->
   retrieval_succeeds stdio_failing_store) /\
  (0 < result_code (osGetSystemVersionData stdio_failing_store) ->
   stdio_failure stdio_failing_store
     (result_code (osGetSystemVersionData stdio_failing_store))) /\
  (result_code (osGetSystemVersionData stdio_failing_store) < 0 ->
   platform_failure stdio_failing_store
     (result_code (osGetSystemVersionData stdio_failing_store))).
Proof.
  apply (osGetSystemVersionData_result stdio_failing_store).
  split; cbn; [exact I | lia].
Defined.

Example osGetSystemVersionData_good :
  osGetSystemVersionData good_store = inl (sample_nver, sample_cver) /\
  result_code (osGetSystemVersionData good_store) = 0.
Proof. split; reflexivity. Qed.

Example osGetSystemVersionData_stdio :
  result_code (osGetSystemVersionData stdio_failing_store) = 2.
Proof. reflexivity. Qed.

Example osGetSystemVersionData_platform :
  result_code (osGetSystemVersionData platform_failing_store) = -10.
Proof. reflexivity. Qed.

(** ** System versions *)

Lemma shiftr_small (a n : Z) : 0 <= n -> 0 <= a < 2 ^ n -> Z.shiftr a n = 0.
Proof.
  intros Hn Ha. rewrite Z.shiftr_div_pow2 by exact Hn.
  apply Z.div_small. exact Ha.
Qed.

Lemma land_byte (a : Z) : 0 <= a <= 255 -> Z.land a 0xFF = a.
Proof.
  intros Ha. change 0xFF with (Z.ones 8).
  rewrite Z.land_ones by lia. apply Z.mod_small. lia.
Qed.

Lemma land_byte_shiftl (a : Z) : Z.land (Z.shiftl a 8) 0xFF = 0.
Proof.
  change 0xFF with (Z.ones 8).
  rewrite Z.land_ones by lia.
  rewrite Z.shiftl_mul_pow2 by lia.
  apply Z.mod_mul. lia.
Qed.

Lemma shl32_small (a n : Z) :
  0 <= n -> 0 <= a -> a * 2 ^ n < 2 ^ 32 -> shl32 a n = Z.shiftl a n.
Proof.
  intros Hn Ha Hfit. unfold shl32.
  apply wrap32_small. unfold is_u32.
  rewrite Z.shiftl_mul_pow2 by exact Hn. nia.
Qed.

(** A packed version fits in 32 bits only if the major number is a byte. *)
Lemma packed_version_major_byte (major minor revision : Z) :
  0 <= major -> 0 <= minor <= 255 -> 0 <= revision <= 255 ->
  packed_version major minor revision < 2 ^ 32 ->
  major <= 255.
Proof.
  intros Hmaj Hmin Hrev Hfit.
  assert (Hnn : 0 <= packed_version major minor revision).
  { unfold packed_version.
    rewrite !Z.lor_nonneg, !Z.shiftl_nonneg. lia. }
  pose proof (shiftr_small (packed_version major minor revision) 32
                ltac:(lia) (conj Hnn Hfit)) as Hhigh.
  unfold packed_version in Hhigh.
  rewrite !Z.shiftr_lor, !Z.shiftr_shiftl_r in Hhigh by lia.
  change (32 - 24) with 8 in Hhigh.
  change (32 - 16) with 16 in Hhigh.
  change (32 - 8) with 24 in Hhigh.
  rewrite (shiftr_small minor 16), (shiftr_small revision 24) in Hhigh by lia.
  rewrite !Z.lor_0_r in Hhigh.
  rewrite Z.shiftr_div_pow2 in Hhigh by lia.
  change (2 ^ 8) with 256 in Hhigh.
  pose proof (Z.div_mod major 256 ltac:(lia)) as E.
  pose proof (Z.mod_pos_bound major 256 ltac:(lia)) as B.
  lia.
Qed.

Lemma SYSTEM_VERSION_bytes (major minor revision : Z) :
  0 <= major <= 255 -> 0 <= minor <= 255 -> 0 <= revision <= 255 ->
  SYSTEM_VERSION major minor revision = packed_version major minor revision.
Proof.
  intros Hmaj Hmin Hrev. unfold SYSTEM_VERSION, packed_version.
  rewrite !shl32_small by lia. reflexivity.
Qed.

(** On [u32] operands: for a non-negative major number and minor and
    revision numbers in 0..255 whose packed version fits in 32 bits,
    extraction undoes packing. *)
Lemma SYSTEM_VERSION_u32_roundtrip (major minor revision : Z) :
  0 <= major ->
  0 <= minor <= 255 ->
  0 <= revision <= 255 ->
  packed_version major minor revision < 2 ^ 32 ->
  GET_VERSION_MAJOR (SYSTEM_VERSION major minor revision) = major /\
  GET_VERSION_MINOR (SYSTEM_VERSION major minor revision) = minor /\
  GET_VERSION_REVISION (SYSTEM_VERSION major minor revision) = revision.
Proof.
  intros Hmaj Hmin Hrev Hfit.
  pose proof (packed_version_major_byte major minor revision Hmaj Hmin Hrev Hfit)
    as Hbyte.
  rewrite SYSTEM_VERSION_bytes by lia.
  unfold GET_VERSION_MAJOR, GET_VERSION_MINOR, GET_VERSION_REVISION,
    shr32, packed_version.
  rewrite !Z.shiftr_lor.
  split; [| split].
  - rewrite (Z.shiftr_shiftl_l major), (Z.shiftr_shiftl_r minor),
      (Z.shiftr_shiftl_r revision) by lia.
    change (24 - 24) with 0. change (24 - 16) with 8. change (24 - 8) with 16.
    rewrite Z.shiftl_0_r.
    rewrite (shiftr_small minor 8), (shiftr_small revision 16) by lia.
    rewrite !Z.lor_0_r. reflexivity.
  - rewrite (Z.shiftr_shiftl_l major), (Z.shiftr_shiftl_l minor),
      (Z.shiftr_shiftl_r revision) by lia.
    change (24 - 16) with 8. change (16 - 16) with 0. change (16 - 8) with 8.
    rewrite Z.shiftl_0_r.
    rewrite (shiftr_small revision 8) by lia.
    rewrite Z.lor_0_r, Z.land_lor_distr_l.
    rewrite land_byte_shiftl, land_byte by lia.
    reflexivity.
  - rewrite !Z.shiftr_shiftl_l by lia.
    change (24 - 8) with 16. change (16 - 8) with 8. change (8 - 8) with 0.
    rewrite Z.shiftl_0_r, !Z.land_lor_distr_l.
    replace (Z.shiftl major 16) with (Z.shiftl (Z.shiftl major 8) 8)
      by (rewrite Z.shiftl_shiftl by lia; reflexivity).
    rewrite !land_byte_shiftl, land_byte by lia.
    reflexivity.
Qed.

(** Without the fit the major number is lost: 256 packs to 0. *)
Example SYSTEM_VERSION_major_wraps :
  GET_VERSION_MAJOR (SYSTEM_VERSION 256 0 0) = 0.
Proof. reflexivity. Qed.

(** ** Memory regions *)

Lemma load32_exec (addr : Z) (s : System) : exec (load32 addr) s = s.
Proof. reflexivity. Qed.

Lemma load32_range (addr : Z) (s : System) : is_u32 (eval (load32 addr) s).
Proof.
  unfold eval, load32. cbn [fst].
  pose proof (wrap8_range (memory s addr)) as B0.
  pose proof (wrap8_range (memory s (wrap32 (addr + 1)))) as B1.
  pose proof (wrap8_range (memory s (wrap32 (addr + 2)))) as B2.
  pose proof (wrap8_range (memory s (wrap32 (addr + 3)))) as B3.
  unfold is_u8 in *. unfold is_u32.
  set (b0 := wrap8 (memory s addr)) in *.
  set (b1 := wrap8 (memory s (wrap32 (addr + 1)))) in *.
  set (b2 := wrap8 (memory s (wrap32 (addr + 2)))) in *.
  set (b3 := wrap8 (memory s (wrap32 (addr + 3)))) in *.
  split.
  - rewrite !Z.lor_nonneg, !Z.shiftl_nonneg. lia.
  - apply Z.log2_lt_cancel. change (Z.log2 (2 ^ 32)) with 32.
    assert (L : forall b k, 0 <= k -> 0 <= b < 2 ^ 8 -> Z.log2 (Z.shiftl b k) < 8 + k).
    { intros b k Hk Hb.
      assert (b = 0 \/ 0 < b) as [-> | Hpos] by lia.
      - rewrite Z.shiftl_0_l. change (Z.log2 0) with 0. lia.
      - rewrite Z.log2_shiftl by lia.
        assert (Z.log2 b < 8) by (apply Z.log2_lt_pow2; lia). lia. }
    pose proof (L b0 0 ltac:(lia) B0) as L0. rewrite Z.shiftl_0_r in L0.
    pose proof (L b1 8 ltac:(lia) B1) as L1.
    pose proof (L b2 16 ltac:(lia) B2) as L2.
    pose proof (L b3 24 ltac:(lia) B3) as L3.
    rewrite !Z.log2_lor; try (rewrite ?Z.lor_nonneg, ?Z.shiftl_nonneg; lia).
Qed.

(** Reading a region size changes nothing in the system. *)
Lemma osGetMemRegionSize_exec (region : MemRegion) (s : System) :
  exec (osGetMemRegionSize region) s = s.
Proof.
  destruct region; simp osGetMemRegionSize;
    rewrite ?exec_bind, ?load32_exec; reflexivity.
Qed.

Lemma osGetMemRegionSize_range (region : MemRegion) (s : System) :
  is_u32 (eval (osGetMemRegionSize region) s).
Proof.
  destruct region; simp osGetMemRegionSize;
    try apply load32_range.
  rewrite !eval_bind. unfold ret, eval at 1. cbn [fst].
  apply wrap32_range.
Qed.

Lemma osGetMemRegionUsed_run (region : MemRegion) (s : System) :
  osGetMemRegionUsed region s =
  (wrap32 (snd (system_info s 0 (MemRegion_value region))), s).
Proof. reflexivity. Qed.

(** C10.  [osGetMemRegionSize MEMREGION_ALL] is the sum modulo 2^32 of
    the sizes it returns for the application, system and base regions; and
    for every region selector [osGetMemRegionFree] is the size minus the
    used bytes, in unsigned 32-bit subtraction. *)
Theorem osGetMemRegion_accounting (s : System) :
  eval (osGetMemRegionSize MEMREGION_ALL) s =
    wrap32 (eval (osGetMemRegionSize MEMREGION_APPLICATION) s +
            eval (osGetMemRegionSize MEMREGION_SYSTEM) s +
            eval (osGetMemRegionSize MEMREGION_BASE) s) /\
  (forall region : MemRegion,
     eval (osGetMemRegionFree region) s =
     wrap32 (eval (osGetMemRegionSize region) s -
             eval (osGetMemRegionUsed region) s)).
Proof.
  split.
  - rewrite osGetMemRegionSize_equation_1.
    rewrite !eval_bind.
    change (fun H : System => osGetMemRegionSize ?r H)
      with (osGetMemRegionSize r).
    rewrite !osGetMemRegionSize_exec.
    unfold ret, eval at 1. cbn [fst].
    unfold add32, wrap32. rewrite Zplus_mod_idemp_l. reflexivity.
  - intros region. unfold osGetMemRegionFree.
    rewrite !eval_bind, osGetMemRegionSize_exec.
    unfold ret, eval at 1. cbn [fst]. reflexivity.
Qed.

Example osGetMemRegionSize_all_sample :
  eval (osGetMemRegionSize MEMREGION_ALL) (sample_system 0 0 0 0x80 0) = 0x81818180.
Proof. reflexivity. Qed.

Example osGetMemRegionFree_wraps :
  eval (osGetMemRegionFree MEMREGION_BASE) (sample_system 0 0 0 0 1) = 0xFFFFFFFF.
Proof. reflexivity. Qed.

(** * Further properties of the inline functions *)

(** ** Sampling a tick counter repeatedly *)

Lemma sample_intervals_step (n : nat) (cnt : TickCounter) (s : System) :
  eval (sample_intervals (S n) cnt) s =
  (elapsed (eval (osTickCounterUpdate cnt) s)
     :: fst (eval (sample_intervals n (eval (osTickCounterUpdate cnt) s))
               (tick_consumed s)),
   snd (eval (sample_intervals n (eval (osTickCounterUpdate cnt) s))
          (tick_consumed s))).
Proof.
  cbn [sample_intervals].
  rewrite eval_bind, exec_update, eval_bind. reflexivity.
Qed.

Lemma sample_intervals_exec (n : nat) (cnt : TickCounter) (s : System) :
  tick_calls (exec (sample_intervals n cnt) s) = (tick_calls s + n)%nat /\
  memory (exec (sample_intervals n cnt) s) = memory s.
Proof.
  revert cnt s. induction n as [| n IH]; intros cnt s.
  - cbn. split; [lia | reflexivity].
  - assert (E : exec (sample_intervals (S n) cnt) s =
                exec (sample_intervals n (eval (osTickCounterUpdate cnt) s))
                  (tick_consumed s)).
    { cbn [sample_intervals].
      rewrite exec_bind, exec_update, exec_bind. reflexivity. }
    rewrite E.
    destruct (IH (eval (osTickCounterUpdate cnt) s) (tick_consumed s)) as [Hc Hm].
    rewrite Hc, Hm. cbn [tick_consumed tick_calls memory]. split; [lia | reflexivity].
Qed.

(** The ticks between two raw samples, added to those between the second
    and a third, are the ticks between the first and the third. *)
Lemma sub64_chain (a b c t : Z) :
  wrap64 t = sub64 c b -> wrap64 (sub64 b a + t) = sub64 c a.
Proof.
  unfold sub64, wrap64. intros Ht.
  rewrite Zplus_mod_idemp_l, Zplus_mod, Ht, <- Zplus_mod.
  f_equal. ring.
Qed.

(** X1.  After any number of [osTickCounterUpdate] calls on one counter, the
    [elapsed] values they left add up, modulo 2^64, to the distance from
    the reference the counter started with to the reference it ends with;
    there is one value per call and each call reads the tick register
    once. *)
Theorem sample_intervals_total (n : nat) (cnt : TickCounter) (s : System) :
  wrap64 (total_ticks (fst (eval (sample_intervals n cnt) s))) =
    sub64 (reference (snd (eval (sample_intervals n cnt) s))) (reference cnt) /\
  length (fst (eval (sample_intervals n cnt) s)) = n /\
  tick_calls (exec (sample_intervals n cnt) s) = (tick_calls s + n)%nat.
Proof.
  split; [| split].
  - revert cnt s. induction n as [| n IH]; intros cnt s.
    + cbn. unfold sub64. rewrite Z.sub_diag. reflexivity.
    + rewrite sample_intervals_step. cbn [fst snd total_ticks fold_right].
      specialize (IH (eval (osTickCounterUpdate cnt) s) (tick_consumed s)).
      rewrite eval_update in IH |- *. cbn [elapsed reference] in IH |- *.
      apply sub64_chain. exact IH.
  - revert cnt s. induction n as [| n IH]; intros cnt s.
    + reflexivity.
    + rewrite sample_intervals_step. cbn [fst length]. rewrite IH. reflexivity.
  - apply sample_intervals_exec.
Qed.

(** Sampling looks at the counter's [reference] only. *)
Lemma sample_intervals_reference (n : nat) (c c' : TickCounter) (s : System) :
  reference c = reference c' ->
  fst (eval (sample_intervals n c) s) = fst (eval (sample_intervals n c') s).
Proof.
  intros E. destruct n as [| n].
  - reflexivity.
  - rewrite !sample_intervals_step. cbn [fst].
    rewrite !eval_update, E. reflexivity.
Qed.

(** X3.  Once [osTickCounterStart] has run, nothing the counter held before
    shows in later measurements: the elapsed values of any run of updates
    are the same whatever the counter's earlier contents. *)
Theorem osTickCounterStart_resets (n : nat) (cnt cnt' : TickCounter) (s : System) :
  fst (eval (c <- osTickCounterStart cnt ;; sample_intervals n c) s) =
  fst (eval (c <- osTickCounterStart cnt' ;; sample_intervals n c) s).
Proof.
  rewrite !eval_bind, !exec_start, !eval_start.
  apply sample_intervals_reference. reflexivity.
Qed.

Lemma sub64_zero_iff (a b : Z) : is_u64 a -> is_u64 b -> sub64 a b = 0 <-> a = b.
Proof.
  unfold is_u64, sub64, wrap64. intros Ha Hb. split.
  - intros H0.
    destruct (Z_lt_le_dec a b) as [Hlt | Hge].
    + assert (E : (a - b) mod 2 ^ 64 = a - b + 2 ^ 64).
      { symmetry. apply (Z.mod_unique (a - b) (2 ^ 64) (-1)); lia. }
      lia.
    + rewrite Z.mod_small in H0 by lia. lia.
  - intros ->. rewrite Z.sub_diag. reflexivity.
Qed.

(** X4.  [osTickCounterUpdate] leaves [elapsed = 0] exactly when the tick
    register shows the very value stored as reference: two different raw
    samples never measure as no time. *)
Theorem osTickCounterUpdate_zero_iff (s : System) (cnt : TickCounter) :
  is_u64 (reference cnt) ->
  elapsed (eval (osTickCounterUpdate cnt) s) = 0 <->
  tick_reading s 0 = reference cnt.
Proof.
  intros Href. rewrite eval_update. cbn [elapsed].
  apply sub64_zero_iff; [apply tick_reading_range | exact Href].
Qed.

(** A counter whose reference is 7, updated when the register shows 7. *)
Lemma osTickCounterUpdate_zero_iff_witness :
  elapsed (eval (osTickCounterUpdate (mkTickCounter 99 7)) (sample_system 7 8 9 0 0)) = 0 <->
  tick_reading (sample_system 7 8 9 0 0) 0 = reference (mkTickCounter 99 7).
Proof.
  apply (osTickCounterUpdate_zero_iff (sample_system 7 8 9 0 0) (mkTickCounter 99 7)).
  cbn. unfold is_u64. lia.
Defined.

(** X5.  [osTickCounterUpdate] loses nothing: the reference it overwrote is the
    new reference minus the new elapsed value, modulo 2^64. *)
Theorem osTickCounterUpdate_recovers_reference (s : System) (cnt : TickCounter) :
  is_u64 (reference cnt) ->
  sub64 (reference (eval (osTickCounterUpdate cnt) s))
        (elapsed (eval (osTickCounterUpdate cnt) s)) = reference cnt.
Proof.
  intros Href. rewrite eval_update. cbn [elapsed reference].
  unfold sub64, wrap64. rewrite Zminus_mod_idemp_r.
  replace (tick_reading s 0 - (tick_reading s 0 - reference cnt))
    with (reference cnt) by ring.
  apply Z.mod_small. exact Href.
Qed.

(** A reference just below the wrap, updated just after it. *)
Lemma osTickCounterUpdate_recovers_reference_witness :
  sub64 (reference (eval (osTickCounterUpdate (mkTickCounter 0 (2 ^ 64 - 1)))
                      (sample_system 3 4 5 0 0)))
        (elapsed (eval (osTickCounterUpdate (mkTickCounter 0 (2 ^ 64 - 1)))
                    (sample_system 3 4 5 0 0))) =
  reference (mkTickCounter 0 (2 ^ 64 - 1)).
Proof.
  apply (osTickCounterUpdate_recovers_reference (sample_system 3 4 5 0 0)
           (mkTickCounter 0 (2 ^ 64 - 1))).
  cbn. unfold is_u64. lia.
Defined.

Example sample_intervals_sample :
  fst (eval (c <- osTickCounterStart fresh_counter ;; sample_intervals 2 c)
         (sample_system 10 25 100 0 0)) = [15; 75].
Proof. reflexivity. Qed.

(** ** Bytes and words *)

Lemma land_shiftl_low (a b n : Z) :
  0 <= n -> 0 <= b < 2 ^ n -> Z.land (Z.shiftl a n) b = 0.
Proof.
  intros Hn Hb. apply Z.bits_inj'. intros i Hi.
  rewrite Z.land_spec, Z.bits_0.
  destruct (Z_lt_le_dec i n) as [Hlow | Hhigh].
  - rewrite Z.shiftl_spec_low by exact Hlow. reflexivity.
  - assert (Z.testbit b i = false) as ->; [| apply andb_false_r].
    assert (b = 0 \/ 0 < b) as [-> | Hpos] by lia.
    + apply Z.testbit_0_l.
    + apply Z.bits_above_log2; [lia |].
      assert (Z.log2 b < n) by (apply Z.log2_lt_pow2; lia). lia.
Qed.

(** Or-ing a value below 2^n into a multiple of 2^n adds it. *)
Lemma lor_mul_low (a b n : Z) :
  0 <= n -> 0 <= b < 2 ^ n -> Z.lor (a * 2 ^ n) b = a * 2 ^ n + b.
Proof.
  intros Hn Hb.
  pose proof (Z.add_lor_land (a * 2 ^ n) b) as E.
  rewrite <- Z.shiftl_mul_pow2 in E by exact Hn.
  rewrite land_shiftl_low in E by assumption.
  rewrite <- Z.shiftl_mul_pow2 by exact Hn. lia.
Qed.

Lemma packed_version_sum (a b c : Z) :
  0 <= b <= 255 -> 0 <= c <= 255 ->
  packed_version a b c = a * 2 ^ 24 + b * 2 ^ 16 + c * 2 ^ 8.
Proof.
  intros Hb Hc. unfold packed_version.
  rewrite !Z.shiftl_mul_pow2 by lia.
  rewrite (lor_mul_low a (b * 2 ^ 16) 24) by lia.
  replace (a * 2 ^ 24 + b * 2 ^ 16) with ((a * 2 ^ 8 + b) * 2 ^ 16) by ring.
  rewrite (lor_mul_low (a * 2 ^ 8 + b) (c * 2 ^ 8) 16) by lia.
  ring.
Qed.

Lemma SYSTEM_VERSION_sum (a b c : Z) :
  0 <= a <= 255 -> 0 <= b <= 255 -> 0 <= c <= 255 ->
  SYSTEM_VERSION a b c = a * 2 ^ 24 + b * 2 ^ 16 + c * 2 ^ 8.
Proof.
  intros Ha Hb Hc.
  rewrite SYSTEM_VERSION_bytes by assumption.
  apply packed_version_sum; assumption.
Qed.

(** The three fields of a word written as a sum of its bytes. *)
Lemma version_fields_of_sum (a b c d : Z) :
  0 <= a -> 0 <= b <= 255 -> 0 <= c <= 255 -> 0 <= d <= 255 ->
  GET_VERSION_MAJOR (a * 2 ^ 24 + b * 2 ^ 16 + c * 2 ^ 8 + d) = a /\
  GET_VERSION_MINOR (a * 2 ^ 24 + b * 2 ^ 16 + c * 2 ^ 8 + d) = b /\
  GET_VERSION_REVISION (a * 2 ^ 24 + b * 2 ^ 16 + c * 2 ^ 8 + d) = c.
Proof.
  intros Ha Hb Hc Hd.
  unfold GET_VERSION_MAJOR, GET_VERSION_MINOR, GET_VERSION_REVISION, shr32.
  change 0xFF with (Z.ones 8).
  rewrite !Z.land_ones, !Z.shiftr_div_pow2 by lia.
  set (v := a * 2 ^ 24 + b * 2 ^ 16 + c * 2 ^ 8 + d).
  assert (E24 : v / 2 ^ 24 = a).
  { symmetry. apply (Z.div_unique v (2 ^ 24) a (b * 2 ^ 16 + c * 2 ^ 8 + d));
      unfold v; lia. }
  assert (E16 : v / 2 ^ 16 = a * 2 ^ 8 + b).
  { symmetry. apply (Z.div_unique v (2 ^ 16) (a * 2 ^ 8 + b) (c * 2 ^ 8 + d));
      unfold v; lia. }
  assert (E8 : v / 2 ^ 8 = a * 2 ^ 16 + b * 2 ^ 8 + c).
  { symmetry. apply (Z.div_unique v (2 ^ 8) (a * 2 ^ 16 + b * 2 ^ 8 + c) d);
      unfold v; lia. }
  rewrite E24, E16, E8.
  split; [reflexivity | split].
  - symmetry. apply (Z.mod_unique (a * 2 ^ 8 + b) (2 ^ 8) a b); lia.
  - symmetry. apply (Z.mod_unique (a * 2 ^ 16 + b * 2 ^ 8 + c) (2 ^ 8) (a * 2 ^ 8 + b) c); lia.
Qed.

(** Masking with [~0xFF] clears the low byte of a 32-bit word. *)
Lemma land_LOW_BYTE_CLEAR (q d : Z) :
  0 <= q < 2 ^ 24 -> 0 <= d <= 255 ->
  Z.land (q * 2 ^ 8 + d) LOW_BYTE_CLEAR = q * 2 ^ 8.
Proof.
  intros Hq Hd.
  rewrite <- (lor_mul_low q d 8) by lia.
  change LOW_BYTE_CLEAR with (Z.shiftl (Z.ones 24) 8).
  rewrite Z.land_lor_distr_l.
  rewrite <- Z.shiftl_mul_pow2 by lia.
  rewrite <- Z.shiftl_land, Z.land_ones by lia.
  rewrite (Z.mod_small q) by lia.
  rewrite (Z.land_comm d), land_shiftl_low by lia.
  apply Z.lor_0_r.
Qed.

Lemma load32_word (addr : Z) (s : System) :
  eval (load32 addr) s = word_at s addr.
Proof.
  unfold eval, load32, word_at. cbn [fst].
  pose proof (wrap8_range (memory s addr)) as B0.
  pose proof (wrap8_range (memory s (wrap32 (addr + 1)))) as B1.
  pose proof (wrap8_range (memory s (wrap32 (addr + 2)))) as B2.
  pose proof (wrap8_range (memory s (wrap32 (addr + 3)))) as B3.
  unfold is_u8 in *.
  set (b0 := wrap8 (memory s addr)) in *.
  set (b1 := wrap8 (memory s (wrap32 (addr + 1)))) in *.
  set (b2 := wrap8 (memory s (wrap32 (addr + 2)))) in *.
  set (b3 := wrap8 (memory s (wrap32 (addr + 3)))) in *.
  rewrite !Z.shiftl_mul_pow2 by lia.
  rewrite (Z.lor_comm (b2 * 2 ^ 16)), (lor_mul_low b3 (b2 * 2 ^ 16) 24) by lia.
  rewrite (Z.lor_comm (b1 * 2 ^ 8)).
  replace (b3 * 2 ^ 24 + b2 * 2 ^ 16) with ((b3 * 2 ^ 8 + b2) * 2 ^ 16) by ring.
  rewrite (lor_mul_low (b3 * 2 ^ 8 + b2) (b1 * 2 ^ 8) 16) by lia.
  rewrite Z.lor_comm.
  replace ((b3 * 2 ^ 8 + b2) * 2 ^ 16 + b1 * 2 ^ 8)
    with ((b3 * 2 ^ 16 + b2 * 2 ^ 8 + b1) * 2 ^ 8) by ring.
  rewrite (lor_mul_low (b3 * 2 ^ 16 + b2 * 2 ^ 8 + b1) b0 8) by lia.
  ring.
Qed.

(** ** Versions read from configuration memory *)

Lemma masked_load (addr : Z) (s : System) :
  eval (v <- load32 addr ;; ret (Z.land v LOW_BYTE_CLEAR)) s =
  SYSTEM_VERSION (wrap8 (memory s (wrap32 (addr + 3))))
                 (wrap8 (memory s (wrap32 (addr + 2))))
                 (wrap8 (memory s (wrap32 (addr + 1)))).
Proof.
  rewrite eval_bind. unfold ret, eval at 1. cbn [fst].
  rewrite load32_word. unfold word_at.
  pose proof (wrap8_range (memory s addr)) as B0.
  pose proof (wrap8_range (memory s (wrap32 (addr + 1)))) as B1.
  pose proof (wrap8_range (memory s (wrap32 (addr + 2)))) as B2.
  pose proof (wrap8_range (memory s (wrap32 (addr + 3)))) as B3.
  unfold is_u8 in *.
  set (b0 := wrap8 (memory s addr)) in *.
  set (b1 := wrap8 (memory s (wrap32 (addr + 1)))) in *.
  set (b2 := wrap8 (memory s (wrap32 (addr + 2)))) in *.
  set (b3 := wrap8 (memory s (wrap32 (addr + 3)))) in *.
  rewrite SYSTEM_VERSION_sum by lia.
  replace (b0 + b1 * 2 ^ 8 + b2 * 2 ^ 16 + b3 * 2 ^ 24)
    with ((b3 * 2 ^ 16 + b2 * 2 ^ 8 + b1) * 2 ^ 8 + b0) by ring.
  rewrite land_LOW_BYTE_CLEAR by lia. ring.
Qed.

Lemma SYSTEM_VERSION_fields (a b c : Z) :
  0 <= a <= 255 -> 0 <= b <= 255 -> 0 <= c <= 255 ->
  GET_VERSION_MAJOR (SYSTEM_VERSION a b c) = a /\
  GET_VERSION_MINOR (SYSTEM_VERSION a b c) = b /\
  GET_VERSION_REVISION (SYSTEM_VERSION a b c) = c /\
  Z.land (SYSTEM_VERSION a b c) 0xFF = 0.
Proof.
  intros Ha Hb Hc. rewrite SYSTEM_VERSION_sum by assumption.
  pose proof (version_fields_of_sum a b c 0 ltac:(lia) Hb Hc ltac:(lia)) as F.
  rewrite Z.add_0_r in F. destruct F as [F1 [F2 F3]].
  repeat split; try assumption.
  change 0xFF with (Z.ones 8). rewrite Z.land_ones by lia.
  replace (a * 2 ^ 24 + b * 2 ^ 16 + c * 2 ^ 8)
    with ((a * 2 ^ 16 + b * 2 ^ 8 + c) * 2 ^ 8) by ring.
  apply Z.mod_mul. lia.
Qed.

(** X6.  [osGetKernelVersion] and [osGetFirmVersion] return the packed version
    [SYSTEM_VERSION major minor revision] whose three numbers are the
    bytes at offsets 3, 2 and 1 of the word they read (at 0x1FF80000 and
    0x1FF80060); the byte at offset 0 never shows: the low byte of the
    result is zero, and the three macros give the three bytes back. *)
Theorem os_versions_are_packed (s : System) :
  (eval osGetKernelVersion s =
     SYSTEM_VERSION (wrap8 (memory s 0x1FF80003)) (wrap8 (memory s 0x1FF80002))
                    (wrap8 (memory s 0x1FF80001)) /\
   GET_VERSION_MAJOR (eval osGetKernelVersion s) = wrap8 (memory s 0x1FF80003) /\
   GET_VERSION_MINOR (eval osGetKernelVersion s) = wrap8 (memory s 0x1FF80002) /\
   GET_VERSION_REVISION (eval osGetKernelVersion s) = wrap8 (memory s 0x1FF80001) /\
   Z.land (eval osGetKernelVersion s) 0xFF = 0) /\
  (eval osGetFirmVersion s =
     SYSTEM_VERSION (wrap8 (memory s 0x1FF80063)) (wrap8 (memory s 0x1FF80062))
                    (wrap8 (memory s 0x1FF80061)) /\
   GET_VERSION_MAJOR (eval osGetFirmVersion s) = wrap8 (memory s 0x1FF80063) /\
   GET_VERSION_MINOR (eval osGetFirmVersion s) = wrap8 (memory s 0x1FF80062) /\
   GET_VERSION_REVISION (eval osGetFirmVersion s) = wrap8 (memory s 0x1FF80061) /\
   Z.land (eval osGetFirmVersion s) 0xFF = 0).
Proof.
  assert (B : forall a, 0 <= wrap8 (memory s a) <= 255).
  { intros a. pose proof (wrap8_range (memory s a)) as R.
    unfold is_u8 in R. lia. }
  split.
  - assert (E : eval osGetKernelVersion s =
                SYSTEM_VERSION (wrap8 (memory s 0x1FF80003))
                  (wrap8 (memory s 0x1FF80002)) (wrap8 (memory s 0x1FF80001))).
    { unfold osGetKernelVersion. rewrite masked_load. reflexivity. }
    rewrite E. split; [reflexivity |].
    apply SYSTEM_VERSION_fields; apply B.
  - assert (E : eval osGetFirmVersion s =
                SYSTEM_VERSION (wrap8 (memory s 0x1FF80063))
                  (wrap8 (memory s 0x1FF80062)) (wrap8 (memory s 0x1FF80061))).
    { unfold osGetFirmVersion. rewrite masked_load. reflexivity. }
    rewrite E. split; [reflexivity |].
    apply SYSTEM_VERSION_fields; apply B.
Qed.

(** ** Comparing packed versions *)

(** On [u32] operands packed versions compare as their (major, minor,
    revision) triples do. *)
Lemma SYSTEM_VERSION_u32_order (a b c a' b' c' : Z) :
  0 <= a <= 255 -> 0 <= b <= 255 -> 0 <= c <= 255 ->
  0 <= a' <= 255 -> 0 <= b' <= 255 -> 0 <= c' <= 255 ->
  (SYSTEM_VERSION a b c < SYSTEM_VERSION a' b' c' <-> version_lt a b c a' b' c') /\
  (SYSTEM_VERSION a b c = SYSTEM_VERSION a' b' c' <-> a = a' /\ b = b' /\ c = c').
Proof.
  intros Ha Hb Hc Ha' Hb' Hc'.
  rewrite !SYSTEM_VERSION_sum by assumption.
  unfold version_lt. split; split; lia.
Qed.

(** Every 32-bit word is four bytes. *)
Lemma u32_bytes (v : Z) :
  is_u32 v ->
  exists a b c d : Z,
    0 <= a <= 255 /\ 0 <= b <= 255 /\ 0 <= c <= 255 /\ 0 <= d <= 255 /\
    v = a * 2 ^ 24 + b * 2 ^ 16 + c * 2 ^ 8 + d.
Proof.
  unfold is_u32. intros Hv.
  pose proof (Z.div_mod v 256 ltac:(lia)) as E0.
  pose proof (Z.mod_pos_bound v 256 ltac:(lia)) as B0.
  set (q1 := v / 256) in *.
  pose proof (Z.div_mod q1 256 ltac:(lia)) as E1.
  pose proof (Z.mod_pos_bound q1 256 ltac:(lia)) as B1.
  set (q2 := q1 / 256) in *.
  pose proof (Z.div_mod q2 256 ltac:(lia)) as E2.
  pose proof (Z.mod_pos_bound q2 256 ltac:(lia)) as B2.
  set (q3 := q2 / 256) in *.
  exists q3, (q2 mod 256), (q1 mod 256), (v mod 256).
  repeat split; lia.
Qed.

(** X8.  Unpacking any 32-bit word and packing the three numbers again gives
    the word with its low byte cleared, which is what [osGetKernelVersion]
    and [osGetFirmVersion] do to the word they read. *)
Theorem SYSTEM_VERSION_of_fields (v : Z) :
  is_u32 v ->
  SYSTEM_VERSION (GET_VERSION_MAJOR v) (GET_VERSION_MINOR v) (GET_VERSION_REVISION v) =
  Z.land v LOW_BYTE_CLEAR.
Proof.
  intros Hv.
  destruct (u32_bytes v Hv) as [a [b [c [d [Ha [Hb [Hc [Hd E]]]]]]]].
  subst v.
  destruct (version_fields_of_sum a b c d ltac:(lia) Hb Hc Hd) as [F1 [F2 F3]].
  rewrite F1, F2, F3, SYSTEM_VERSION_sum by assumption.
  replace (a * 2 ^ 24 + b * 2 ^ 16 + c * 2 ^ 8 + d)
    with ((a * 2 ^ 16 + b * 2 ^ 8 + c) * 2 ^ 8 + d) by ring.
  rewrite land_LOW_BYTE_CLEAR by lia. ring.
Qed.

(** The word 0x022E0017: version 2.46-0 with a stray low byte. *)
Lemma SYSTEM_VERSION_of_fields_witness :
  SYSTEM_VERSION (GET_VERSION_MAJOR 0x022E0017) (GET_VERSION_MINOR 0x022E0017)
    (GET_VERSION_REVISION 0x022E0017) = Z.land 0x022E0017 LOW_BYTE_CLEAR.
Proof.
  apply (SYSTEM_VERSION_of_fields 0x022E0017).
  unfold is_u32. lia.
Defined.

Lemma log2_u32 (x : Z) : is_u32 x -> Z.log2 x < 32.
Proof.
  unfold is_u32. intros Hx.
  assert (x = 0 \/ 0 < x) as [-> | Hpos] by lia.
  - change (Z.log2 0) with 0. lia.
  - apply Z.log2_lt_pow2; lia.
Qed.

Lemma lor_u32 (x y : Z) : is_u32 x -> is_u32 y -> is_u32 (Z.lor x y).
Proof.
  intros Hx Hy.
  pose proof (log2_u32 x Hx) as Lx. pose proof (log2_u32 y Hy) as Ly.
  unfold is_u32 in *. split.
  - apply Z.lor_nonneg. lia.
  - apply Z.log2_lt_cancel. change (Z.log2 (2 ^ 32)) with 32.
    rewrite Z.log2_lor by lia. lia.
Qed.

Lemma shl32_low_byte (a k : Z) : 8 <= k -> Z.land (shl32 a k) 0xFF = 0.
Proof.
  intros Hk. unfold shl32, wrap32.
  change 0xFF with (Z.ones 8). rewrite Z.land_ones by lia.
  apply Z.bits_inj'. intros i Hi.
  rewrite Z.bits_0, !Z.testbit_mod_pow2 by lia.
  destruct (i <? 8) eqn:E8; [| reflexivity].
  apply Z.ltb_lt in E8.
  rewrite Z.shiftl_spec_low by lia.
  rewrite andb_false_r. reflexivity.
Qed.

(** X9.  Whatever its three arguments, [SYSTEM_VERSION] gives a 32-bit word
    whose low byte is zero: numbers too large for their field spill into
    the fields above or are cut off at bit 32, never into the low byte. *)
Theorem SYSTEM_VERSION_word (major minor revision : Z) :
  is_u32 (SYSTEM_VERSION major minor revision) /\
  Z.land (SYSTEM_VERSION major minor revision) 0xFF = 0.
Proof.
  unfold SYSTEM_VERSION. split.
  - repeat apply lor_u32; apply wrap32_range.
  - rewrite !Z.land_lor_distr_l, !shl32_low_byte by lia. reflexivity.
Qed.

(** X10.  [GET_VERSION_MINOR] and [GET_VERSION_REVISION] of any word lie in
    0..255, and so does [GET_VERSION_MAJOR] of a 32-bit word; the low byte
    of the word plays no part in any of the three. *)
Theorem GET_VERSION_bounds (v : Z) :
  0 <= GET_VERSION_MINOR v <= 255 /\
  0 <= GET_VERSION_REVISION v <= 255 /\
  (is_u32 v ->
   0 <= GET_VERSION_MAJOR v <= 255 /\
   GET_VERSION_MAJOR (Z.land v LOW_BYTE_CLEAR) = GET_VERSION_MAJOR v /\
   GET_VERSION_MINOR (Z.land v LOW_BYTE_CLEAR) = GET_VERSION_MINOR v /\
   GET_VERSION_REVISION (Z.land v LOW_BYTE_CLEAR) = GET_VERSION_REVISION v).
Proof.
  split; [| split].
  - unfold GET_VERSION_MINOR. change 0xFF with (Z.ones 8).
    rewrite Z.land_ones by lia.
    change (Z.ones 8) with 255.
    pose proof (Z.mod_pos_bound (shr32 v 16) (2 ^ 8) ltac:(lia)). lia.
  - unfold GET_VERSION_REVISION. change 0xFF with (Z.ones 8).
    rewrite Z.land_ones by lia.
    change (Z.ones 8) with 255.
    pose proof (Z.mod_pos_bound (shr32 v 8) (2 ^ 8) ltac:(lia)). lia.
  - intros Hv.
    destruct (u32_bytes v Hv) as [a [b [c [d [Ha [Hb [Hc [Hd E]]]]]]]].
    subst v.
    destruct (version_fields_of_sum a b c d ltac:(lia) Hb Hc Hd) as [F1 [F2 F3]].
    rewrite F1, F2, F3.
    replace (a * 2 ^ 24 + b * 2 ^ 16 + c * 2 ^ 8 + d)
      with ((a * 2 ^ 16 + b * 2 ^ 8 + c) * 2 ^ 8 + d) by ring.
    rewrite land_LOW_BYTE_CLEAR by lia.
    replace ((a * 2 ^ 16 + b * 2 ^ 8 + c) * 2 ^ 8)
      with (a * 2 ^ 24 + b * 2 ^ 16 + c * 2 ^ 8 + 0) by ring.
    destruct (version_fields_of_sum a b c 0 ltac:(lia) Hb Hc ltac:(lia))
      as [G1 [G2 G3]].
    rewrite G1, G2, G3. repeat split; lia.
Qed.

(** ** Memory-region accounting *)

Lemma osGetMemRegionSize_words (s : System) :
  eval (osGetMemRegionSize MEMREGION_APPLICATION) s = word_at s 0x1FF80040 /\
  eval (osGetMemRegionSize MEMREGION_SYSTEM) s = word_at s 0x1FF80044 /\
  eval (osGetMemRegionSize MEMREGION_BASE) s = word_at s 0x1FF80048.
Proof.
  simp osGetMemRegionSize. rewrite !load32_word.
  repeat split; reflexivity.
Qed.

Lemma osGetMemRegionSize_all_eval (s : System) :
  eval (osGetMemRegionSize MEMREGION_ALL) s =
  wrap32 (eval (osGetMemRegionSize MEMREGION_APPLICATION) s +
          eval (osGetMemRegionSize MEMREGION_SYSTEM) s +
          eval (osGetMemRegionSize MEMREGION_BASE) s).
Proof.
  rewrite osGetMemRegionSize_equation_1.
  rewrite !eval_bind.
  change (fun H : System => osGetMemRegionSize ?r H)
    with (osGetMemRegionSize r).
  rewrite !osGetMemRegionSize_exec.
  unfold ret, eval at 1. cbn [fst].
  unfold add32, wrap32. rewrite Zplus_mod_idemp_l. reflexivity.
Qed.

Lemma osGetMemRegionFree_eval (region : MemRegion) (s : System) :
  eval (osGetMemRegionFree region) s =
  wrap32 (eval (osGetMemRegionSize region) s - eval (osGetMemRegionUsed region) s).
Proof.
  unfold osGetMemRegionFree.
  rewrite !eval_bind, osGetMemRegionSize_exec.
  unfold ret, eval at 1. cbn [fst]. reflexivity.
Qed.

Lemma osGetMemRegionUsed_eval (region : MemRegion) (s : System) :
  eval (osGetMemRegionUsed region) s = wrap32 (reported_used s region).
Proof. reflexivity. Qed.

Lemma word_at_agree (s s' : System) (addr : Z) :
  (forall k, 0 <= k <= 3 ->
     wrap8 (memory s (addr + k)) = wrap8 (memory s' (addr + k))) ->
  0 <= addr -> addr + 3 < 2 ^ 32 ->
  word_at s addr = word_at s' addr.
Proof.
  intros H Hlo Hhi. unfold word_at, wrap32.
  rewrite !(Z.mod_small (addr + _)) by lia.
  rewrite <- (H 1), <- (H 2), <- (H 3) by lia.
  pose proof (H 0 ltac:(lia)) as H0. rewrite Z.add_0_r in H0.
  rewrite H0. reflexivity.
Qed.

(** X11.  The sizes [osGetMemRegionSize] returns depend on the twelve bytes at
    0x1FF80040..0x1FF8004B and on nothing else: two systems that agree on
    those bytes give the same size for every region selector,
    [MEMREGION_ALL] included (for which the word before 0x1FF80040, where
    [region - 1] would point, is never read). *)
Theorem osGetMemRegionSize_locality (s s' : System) :
  (forall a, 0x1FF80040 <= a <= 0x1FF8004B ->
     wrap8 (memory s a) = wrap8 (memory s' a)) ->
  forall region : MemRegion,
    eval (osGetMemRegionSize region) s = eval (osGetMemRegionSize region) s'.
Proof.
  intros H.
  destruct (osGetMemRegionSize_words s) as [A [B C]].
  destruct (osGetMemRegionSize_words s') as [A' [B' C']].
  assert (EA : word_at s 0x1FF80040 = word_at s' 0x1FF80040).
  { apply word_at_agree; [intros k Hk; apply H |..]; lia. }
  assert (EB : word_at s 0x1FF80044 = word_at s' 0x1FF80044).
  { apply word_at_agree; [intros k Hk; apply H |..]; lia. }
  assert (EC : word_at s 0x1FF80048 = word_at s' 0x1FF80048).
  { apply word_at_agree; [intros k Hk; apply H |..]; lia. }
  intros [| | |].
  - rewrite !osGetMemRegionSize_all_eval. congruence.
  - congruence.
  - congruence.
  - congruence.
Qed.

(** Two systems alike only in the twelve bytes. *)
Lemma osGetMemRegionSize_locality_witness :
  eval (osGetMemRegionSize MEMREGION_ALL) (sample_system 0 0 0 5 0) =
  eval (osGetMemRegionSize MEMREGION_ALL) other_system.
Proof.
  refine (osGetMemRegionSize_locality (sample_system 0 0 0 5 0) other_system
            _ MEMREGION_ALL).
  intros a [Hlo Hhi]. cbn [memory sample_system other_system].
  apply Z.leb_le in Hlo. apply Z.leb_le in Hhi.
  rewrite Hlo, Hhi. reflexivity.
Defined.

(** X12.  When the kernel reports a used-byte count between 0 and the region's
    size, [osGetMemRegionFree] is exactly size minus used: nothing wraps,
    free and used add up to the size, and free does not exceed the size. *)
Theorem osGetMemRegionFree_exact (s : System) (region : MemRegion) :
  0 <= reported_used s region <= eval (osGetMemRegionSize region) s ->
  eval (osGetMemRegionFree region) s =
    eval (osGetMemRegionSize region) s - reported_used s region /\
  eval (osGetMemRegionFree region) s + eval (osGetMemRegionUsed region) s =
    eval (osGetMemRegionSize region) s /\
  0 <= eval (osGetMemRegionFree region) s <= eval (osGetMemRegionSize region) s.
Proof.
  intros Hused.
  pose proof (osGetMemRegionSize_range region s) as Hsize. unfold is_u32 in Hsize.
  rewrite osGetMemRegionFree_eval, osGetMemRegionUsed_eval.
  rewrite (wrap32_small (reported_used s region)) by (unfold is_u32; lia).
  rewrite wrap32_small by (unfold is_u32; lia).
  lia.
Qed.

(** A base region of 0x01010101 bytes of which 0x01000000 are used. *)
Lemma osGetMemRegionFree_exact_witness :
  eval (osGetMemRegionFree MEMREGION_BASE) (sample_system 0 0 0 1 0x01000000) =
    eval (osGetMemRegionSize MEMREGION_BASE) (sample_system 0 0 0 1 0x01000000)
    - reported_used (sample_system 0 0 0 1 0x01000000) MEMREGION_BASE /\
  eval (osGetMemRegionFree MEMREGION_BASE) (sample_system 0 0 0 1 0x01000000)
    + eval (osGetMemRegionUsed MEMREGION_BASE) (sample_system 0 0 0 1 0x01000000) =
    eval (osGetMemRegionSize MEMREGION_BASE) (sample_system 0 0 0 1 0x01000000) /\
  0 <= eval (osGetMemRegionFree MEMREGION_BASE) (sample_system 0 0 0 1 0x01000000)
    <= eval (osGetMemRegionSize MEMREGION_BASE) (sample_system 0 0 0 1 0x01000000).
Proof.
  apply (osGetMemRegionFree_exact (sample_system 0 0 0 1 0x01000000) MEMREGION_BASE).
  vm_compute. split; intros H; discriminate H.
Defined.

(** X13.  When the kernel reports more used bytes than the region holds, the
    unsigned subtraction in [osGetMemRegionFree] wraps: the result is
    2^32 minus the excess, a value above the region's size, not zero. *)
Theorem osGetMemRegionFree_wraps_above (s : System) (region : MemRegion) :
  eval (osGetMemRegionSize region) s < reported_used s region < 2 ^ 32 ->
  eval (osGetMemRegionFree region) s =
    2 ^ 32 - (reported_used s region - eval (osGetMemRegionSize region) s) /\
  eval (osGetMemRegionSize region) s < eval (osGetMemRegionFree region) s.
Proof.
  intros Hused.
  pose proof (osGetMemRegionSize_range region s) as Hsize. unfold is_u32 in Hsize.
  rewrite osGetMemRegionFree_eval, osGetMemRegionUsed_eval.
  rewrite (wrap32_small (reported_used s region)) by (unfold is_u32; lia).
  assert (E : wrap32 (eval (osGetMemRegionSize region) s - reported_used s region) =
              eval (osGetMemRegionSize region) s - reported_used s region + 2 ^ 32).
  { unfold wrap32. symmetry.
    apply (Z.mod_unique _ (2 ^ 32) (-1)); lia. }
  rewrite E. lia.
Qed.

(** A system region of 0 bytes with 16 bytes reported used. *)
Lemma osGetMemRegionFree_wraps_above_witness :
  eval (osGetMemRegionFree MEMREGION_SYSTEM) (sample_system 0 0 0 0 16) =
    2 ^ 32 - (reported_used (sample_system 0 0 0 0 16) MEMREGION_SYSTEM
              - eval (osGetMemRegionSize MEMREGION_SYSTEM) (sample_system 0 0 0 0 16)) /\
  eval (osGetMemRegionSize MEMREGION_SYSTEM) (sample_system 0 0 0 0 16)
    < eval (osGetMemRegionFree MEMREGION_SYSTEM) (sample_system 0 0 0 0 16).
Proof.
  apply (osGetMemRegionFree_wraps_above (sample_system 0 0 0 0 16) MEMREGION_SYSTEM).
  vm_compute. split; reflexivity.
Defined.

Lemma wrap32_congr (x y k : Z) : x = y + k * 2 ^ 32 -> wrap32 x = wrap32 y.
Proof. intros ->. unfold wrap32. apply Z.mod_add. lia. Qed.

(** X14.  If the kernel's used-byte count for [MEMREGION_ALL] is the sum, modulo
    2^32, of its counts for the application, system and base regions, then
    the free bytes [osGetMemRegionFree] gives for [MEMREGION_ALL] are the
    sum, modulo 2^32, of the free bytes it gives for the three regions. *)
Theorem osGetMemRegionFree_additive (s : System) :
  eval (osGetMemRegionUsed MEMREGION_ALL) s =
    wrap32 (eval (osGetMemRegionUsed MEMREGION_APPLICATION) s +
            eval (osGetMemRegionUsed MEMREGION_SYSTEM) s +
            eval (osGetMemRegionUsed MEMREGION_BASE) s) ->
  eval (osGetMemRegionFree MEMREGION_ALL) s =
    wrap32 (eval (osGetMemRegionFree MEMREGION_APPLICATION) s +
            eval (osGetMemRegionFree MEMREGION_SYSTEM) s +
            eval (osGetMemRegionFree MEMREGION_BASE) s).
Proof.
  intros Hused.
  rewrite !osGetMemRegionFree_eval, Hused, osGetMemRegionSize_all_eval.
  set (a := eval (osGetMemRegionSize MEMREGION_APPLICATION) s).
  set (b := eval (osGetMemRegionSize MEMREGION_SYSTEM) s).
  set (c := eval (osGetMemRegionSize MEMREGION_BASE) s).
  set (ua := eval (osGetMemRegionUsed MEMREGION_APPLICATION) s).
  set (ub := eval (osGetMemRegionUsed MEMREGION_SYSTEM) s).
  set (uc := eval (osGetMemRegionUsed MEMREGION_BASE) s).
  transitivity (wrap32 (a + b + c - (ua + ub + uc))).
  - apply (wrap32_congr _ _
             (- ((a + b + c) / 2 ^ 32) + (ua + ub + uc) / 2 ^ 32)).
    unfold wrap32. rewrite !Z.mod_eq by lia. ring.
  - symmetry.
    apply (wrap32_congr _ _
             (- ((a - ua) / 2 ^ 32) - (b - ub) / 2 ^ 32 - (c - uc) / 2 ^ 32)).
    unfold wrap32. rewrite !Z.mod_eq by lia. ring.
Qed.

(** Three regions with 7 bytes used in each and 21 in all. *)
Lemma osGetMemRegionFree_additive_witness :
  eval (osGetMemRegionFree MEMREGION_ALL) accounting_system =
    wrap32 (eval (osGetMemRegionFree MEMREGION_APPLICATION) accounting_system +
            eval (osGetMemRegionFree MEMREGION_SYSTEM) accounting_system +
            eval (osGetMemRegionFree MEMREGION_BASE) accounting_system).
Proof.
  apply (osGetMemRegionFree_additive accounting_system).
  reflexivity.
Defined.

Example osGetMemRegionFree_accounting_sample :
  eval (osGetMemRegionFree MEMREGION_ALL) accounting_system = 0x03030303 - 21.
Proof. reflexivity. Qed.

(** ** The address map *)

Ltac split_areas v :=
  repeat match goal with
  | |- context [in_area ?b ?sz v] =>
      let E := fresh "E" in
      destruct (in_area b sz v) eqn:E;
      [apply in_area_spec in E | apply in_area_false in E]
  end.

Ltac unfold_map :=
  unfold OS_HEAP_AREA_BEGIN, OS_HEAP_AREA_END, OS_MAP_AREA_BEGIN,
    OS_MAP_AREA_END, OS_OLD_FCRAM_VADDR, OS_OLD_FCRAM_PADDR, OS_OLD_FCRAM_SIZE,
    OS_QTMRAM_VADDR, OS_QTMRAM_PADDR, OS_QTMRAM_SIZE, OS_MMIO_VADDR,
    OS_MMIO_PADDR, OS_MMIO_SIZE, OS_VRAM_VADDR, OS_VRAM_PADDR, OS_VRAM_SIZE,
    OS_DSPRAM_VADDR, OS_DSPRAM_PADDR, OS_DSPRAM_SIZE, OS_FCRAM_VADDR,
    OS_FCRAM_PADDR, OS_FCRAM_SIZE in *.

(** X15.  The eight virtual ranges the header names do not overlap: no address
    lies in two of them.  The configuration memory the accessors read, from
    0x1FF80000 on, lies in none of them. *)
Theorem os_virtual_areas_disjoint (vaddr : Z) :
  (length (areas_of vaddr) <= 1)%nat /\
  (0x1FF80000 <= vaddr < 0x1FF82000 -> areas_of vaddr = []).
Proof.
  unfold areas_of, os_virtual_areas. cbn [filter fst snd].
  split.
  - split_areas vaddr; cbn [length]; unfold_map; lia.
  - intros Hcfg.
    split_areas vaddr; try reflexivity; exfalso; unfold_map; lia.
Qed.

(** X16.  Under the five mappings in force, two virtual addresses with the same
    physical address are the same address in the same mapping: no physical
    byte is reachable twice. *)
Theorem os_mappings_injective (m1 m2 : Z * Z * Z) (v1 v2 : Z) :
  In m1 os_mappings -> In m2 os_mappings ->
  mapping_covers m1 v1 = true -> mapping_covers m2 v2 = true ->
  mapping_paddr m1 v1 = mapping_paddr m2 v2 ->
  v1 = v2 /\ m1 = m2.
Proof.
  unfold os_mappings, mapping_covers, mapping_paddr.
  intros H1 H2 C1 C2 E.
  cbn [In] in H1, H2.
  repeat match goal with
  | H : _ \/ _ |- _ => destruct H as [H | H]
  | H : False |- _ => destruct H
  end; subst m1 m2; cbn [fst snd] in C1, C2, E;
  apply in_area_spec in C1; apply in_area_spec in C2;
  unfold_map; (split; [lia | first [reflexivity | exfalso; lia]]).
Qed.

(** The first byte of VRAM, seen once. *)
Lemma os_mappings_injective_witness :
  0x1F000000 = 0x1F000000 /\
  (OS_VRAM_VADDR, OS_VRAM_PADDR, OS_VRAM_SIZE) = (OS_VRAM_VADDR, OS_VRAM_PADDR, OS_VRAM_SIZE).
Proof.
  apply (os_mappings_injective (OS_VRAM_VADDR, OS_VRAM_PADDR, OS_VRAM_SIZE)
           (OS_VRAM_VADDR, OS_VRAM_PADDR, OS_VRAM_SIZE) 0x1F000000 0x1F000000).
  - cbn. tauto.
  - cbn. tauto.
  - reflexivity.
  - reflexivity.
  - reflexivity.
Defined.

(** The legacy FCRAM mapping is the one alias: its first byte and the first
    byte of the current FCRAM mapping share a physical address. *)
Example old_fcram_aliases :
  old_linear_paddr OS_OLD_FCRAM_VADDR = linear_paddr OS_FCRAM_VADDR /\
  OS_OLD_FCRAM_VADDR <> OS_FCRAM_VADDR.
Proof. split; [reflexivity | discriminate]. Qed.

(** ** Sampling a tick register that does not wrap *)



(** ** Version macros on [int] operands *)

Lemma shl_int_small (a n : Z) :
  0 <= n -> - 2 ^ 31 <= a * 2 ^ n < 2 ^ 31 -> shl_int a n = a * 2 ^ n.
Proof.
  intros Hn Hfit. unfold shl_int, wrap_s32.
  rewrite Z.shiftl_mul_pow2 by exact Hn.
  rewrite Z.mod_small by lia. ring.
Qed.

Lemma shl_int_top (a : Z) :
  128 <= a <= 255 -> shl_int a 24 = (a - 256) * 2 ^ 24.
Proof.
  intros Ha. unfold shl_int, wrap_s32.
  rewrite Z.shiftl_mul_pow2 by lia.
  assert (E : (a * 2 ^ 24 + 2 ^ 31) mod 2 ^ 32 = a * 2 ^ 24 + 2 ^ 31 - 2 ^ 32).
  { symmetry. apply (Z.mod_unique _ (2 ^ 32) 1); lia. }
  rewrite E. lia.
Qed.

Lemma signed_byte_cases (a : Z) :
  (a < 128 -> signed_byte a = a) /\ (128 <= a -> signed_byte a = a - 256).
Proof.
  unfold signed_byte. split; intros H.
  - apply Z.ltb_lt in H. rewrite H. reflexivity.
  - apply Z.ltb_ge in H. rewrite H. reflexivity.
Qed.

(** On [int] operands the packed version carries its major number as a
    signed byte. *)
Lemma SYSTEM_VERSION_int_sum (a b c : Z) :
  0 <= a <= 255 -> 0 <= b <= 255 -> 0 <= c <= 255 ->
  SYSTEM_VERSION_int a b c = signed_byte a * 2 ^ 24 + b * 2 ^ 16 + c * 2 ^ 8.
Proof.
  intros Ha Hb Hc. unfold SYSTEM_VERSION_int.
  rewrite (shl_int_small b 16), (shl_int_small c 8) by lia.
  assert (E : shl_int a 24 = signed_byte a * 2 ^ 24).
  { destruct (signed_byte_cases a) as [Lo Hi].
    destruct (Z_lt_le_dec a 128) as [Hlt | Hge].
    - rewrite Lo by exact Hlt. apply shl_int_small; lia.
    - rewrite Hi by exact Hge. apply shl_int_top. lia. }
  rewrite E.
  rewrite (lor_mul_low (signed_byte a) (b * 2 ^ 16) 24) by lia.
  replace (signed_byte a * 2 ^ 24 + b * 2 ^ 16)
    with ((signed_byte a * 2 ^ 8 + b) * 2 ^ 16) by ring.
  rewrite (lor_mul_low (signed_byte a * 2 ^ 8 + b) (c * 2 ^ 8) 16) by lia.
  ring.
Qed.

(** The three fields of a word of either sign written as a sum. *)
Lemma version_fields_of_signed_sum (a b c : Z) :
  0 <= b <= 255 -> 0 <= c <= 255 ->
  GET_VERSION_MAJOR (a * 2 ^ 24 + b * 2 ^ 16 + c * 2 ^ 8) = a /\
  GET_VERSION_MINOR (a * 2 ^ 24 + b * 2 ^ 16 + c * 2 ^ 8) = b /\
  GET_VERSION_REVISION (a * 2 ^ 24 + b * 2 ^ 16 + c * 2 ^ 8) = c.
Proof.
  intros Hb Hc.
  unfold GET_VERSION_MAJOR, GET_VERSION_MINOR, GET_VERSION_REVISION, shr32.
  change 0xFF with (Z.ones 8).
  rewrite !Z.land_ones, !Z.shiftr_div_pow2 by lia.
  set (v := a * 2 ^ 24 + b * 2 ^ 16 + c * 2 ^ 8).
  assert (E24 : v / 2 ^ 24 = a).
  { symmetry. apply (Z.div_unique v (2 ^ 24) a (b * 2 ^ 16 + c * 2 ^ 8));
      unfold v; lia. }
  assert (E16 : v / 2 ^ 16 = a * 2 ^ 8 + b).
  { symmetry. apply (Z.div_unique v (2 ^ 16) (a * 2 ^ 8 + b) (c * 2 ^ 8));
      unfold v; lia. }
  assert (E8 : v / 2 ^ 8 = a * 2 ^ 16 + b * 2 ^ 8 + c).
  { symmetry. apply (Z.div_unique v (2 ^ 8) (a * 2 ^ 16 + b * 2 ^ 8 + c) 0);
      unfold v; lia. }
  rewrite E24, E16, E8.
  split; [reflexivity | split].
  - symmetry. apply (Z.mod_unique (a * 2 ^ 8 + b) (2 ^ 8) a b); lia.
  - symmetry.
    apply (Z.mod_unique (a * 2 ^ 16 + b * 2 ^ 8 + c) (2 ^ 8) (a * 2 ^ 8 + b) c); lia.
Qed.

Lemma SYSTEM_VERSION_int_fields (a b c : Z) :
  0 <= a <= 255 -> 0 <= b <= 255 -> 0 <= c <= 255 ->
  GET_VERSION_MAJOR (SYSTEM_VERSION_int a b c) = signed_byte a /\
  GET_VERSION_MINOR (SYSTEM_VERSION_int a b c) = b /\
  GET_VERSION_REVISION (SYSTEM_VERSION_int a b c) = c.
Proof.
  intros Ha Hb Hc. rewrite SYSTEM_VERSION_int_sum by assumption.
  apply version_fields_of_signed_sum; assumption.
Qed.

(** Converting an [int]-packed version to [u32], as a comparison with a
    [u32] does, gives the [u32]-packed version. *)
Lemma SYSTEM_VERSION_int_to_u32 (a b c : Z) :
  0 <= a <= 255 -> 0 <= b <= 255 -> 0 <= c <= 255 ->
  wrap32 (SYSTEM_VERSION_int a b c) = SYSTEM_VERSION a b c.
Proof.
  intros Ha Hb Hc.
  rewrite SYSTEM_VERSION_int_sum, SYSTEM_VERSION_sum by assumption.
  destruct (signed_byte_cases a) as [Lo Hi].
  destruct (Z_lt_le_dec a 128) as [Hlt | Hge].
  - rewrite Lo by exact Hlt. apply wrap32_small. unfold is_u32. lia.
  - rewrite Hi by exact Hge.
    rewrite (wrap32_congr _ (a * 2 ^ 24 + b * 2 ^ 16 + c * 2 ^ 8) (-1)) by ring.
    apply wrap32_small. unfold is_u32. lia.
Qed.




Example SYSTEM_VERSION_int_header_example :
  SYSTEM_VERSION_int 2 46 0 = 0x022E0000 /\
  GET_VERSION_MAJOR (SYSTEM_VERSION_int 2 46 0) = 2 /\
  GET_VERSION_MINOR (SYSTEM_VERSION_int 2 46 0) = 46 /\
  GET_VERSION_REVISION (SYSTEM_VERSION_int 2 46 0) = 0.
Proof. repeat split; reflexivity. Qed.

(** ** Comparing packed versions, by operand type *)

(** X7.  For version numbers in 0..255.  On [u32] operands packed versions
    compare as their (major, minor, revision) triples do, and are equal
    only when the triples are.  An [int]-packed version converted to [u32]
    is the [u32]-packed version, so the header's test
    [osGetKernelVersion() > SYSTEM_VERSION(2,46,0)], which compares a [u32]
    with an [int], is of the first kind.  Two [int]-packed versions
    compare as the triples with the major number read as a signed byte:
    as the triples themselves when both major numbers are at most 127,
    and with a major number from 128 up sorting below those. *)
Theorem SYSTEM_VERSION_compare (a b c a' b' c' : Z) :
  0 <= a <= 255 -> 0 <= b <= 255 -> 0 <= c <= 255 ->
  0 <= a' <= 255 -> 0 <= b' <= 255 -> 0 <= c' <= 255 ->
  (SYSTEM_VERSION a b c < SYSTEM_VERSION a' b' c' <-> version_lt a b c a' b' c') /\
  (SYSTEM_VERSION a b c = SYSTEM_VERSION a' b' c' <-> a = a' /\ b = b' /\ c = c') /\
  wrap32 (SYSTEM_VERSION_int a' b' c') = SYSTEM_VERSION a' b' c' /\
  (SYSTEM_VERSION_int a b c < SYSTEM_VERSION_int a' b' c' <->
   version_lt (signed_byte a) b c (signed_byte a') b' c') /\
  (a <= 127 -> a' <= 127 ->
   (SYSTEM_VERSION_int a b c < SYSTEM_VERSION_int a' b' c' <->
    version_lt a b c a' b' c')) /\
  (a <= 127 -> 128 <= a' ->
   SYSTEM_VERSION_int a' b' c' < SYSTEM_VERSION_int a b c).
Proof.
  intros Ha Hb Hc Ha' Hb' Hc'.
  rewrite SYSTEM_VERSION_int_to_u32 by assumption.
  rewrite !SYSTEM_VERSION_sum, !SYSTEM_VERSION_int_sum by assumption.
  destruct (signed_byte_cases a) as [Lo Hi].
  destruct (signed_byte_cases a') as [Lo' Hi'].
  unfold version_lt.
  split; [| split; [| split; [| split; [| split]]]].
  - split; lia.
  - split; lia.
  - reflexivity.
  - destruct (Z_lt_le_dec a 128) as [H | H];
      destruct (Z_lt_le_dec a' 128) as [H' | H'];
      rewrite ?Lo, ?Hi, ?Lo', ?Hi' by lia; split; lia.
  - intros H H'. rewrite Lo, Lo' by lia. split; lia.
  - intros H H'. rewrite Lo, Hi' by lia. lia.
Qed.

(** Versions 2.46-0 and 130.9-9: the second needs bit 31 when packed. *)
Lemma SYSTEM_VERSION_compare_witness :
  (SYSTEM_VERSION 2 46 0 < SYSTEM_VERSION 130 9 9 <-> version_lt 2 46 0 130 9 9) /\
  (SYSTEM_VERSION 2 46 0 = SYSTEM_VERSION 130 9 9 <-> 2 = 130 /\ 46 = 9 /\ 0 = 9) /\
  wrap32 (SYSTEM_VERSION_int 130 9 9) = SYSTEM_VERSION 130 9 9 /\
  (SYSTEM_VERSION_int 2 46 0 < SYSTEM_VERSION_int 130 9 9 <->
   version_lt (signed_byte 2) 46 0 (signed_byte 130) 9 9) /\
  (2 <= 127 -> 130 <= 127 ->
   (SYSTEM_VERSION_int 2 46 0 < SYSTEM_VERSION_int 130 9 9 <->
    version_lt 2 46 0 130 9 9)) /\
  (2 <= 127 -> 128 <= 130 ->
   SYSTEM_VERSION_int 130 9 9 < SYSTEM_VERSION_int 2 46 0).
Proof.
  apply (SYSTEM_VERSION_compare 2 46 0 130 9 9); lia.
Defined.

(** Packed from [int] operands, version 128.0-0 sorts below 2.46-0; packed
    from [u32] operands, or converted to [u32], it sorts above. *)
Example SYSTEM_VERSION_int_order_sample :
  SYSTEM_VERSION_int 128 0 0 < SYSTEM_VERSION_int 2 46 0 /\
  SYSTEM_VERSION 2 46 0 < SYSTEM_VERSION 128 0 0 /\
  wrap32 (SYSTEM_VERSION_int 2 46 0) < wrap32 (SYSTEM_VERSION_int 128 0 0).
Proof. repeat split; reflexivity. Qed.
